(** * Core mission control: the ops specialist and the health database entrypoint

    A shallow embedding of
    - [src/orchestrator/ops-specialist/index.ts] ([OpsSpecialist]) and
    - [src/unnamed/part_001] ([HealthOps], the RPC entrypoint over DB_HEALTH),
    with the D1 (SQLite) database seen through drizzle-orm as lists of rows. *)

From Stdlib Require Import String List ZArith Bool QArith Lia.
From Stdlib Require Import Sorting.Sorted Permutation.
From Stdlib Require Import Numbers.DecimalString.
Import ListNotations.
Open Scope string_scope.

(** ** Promises and JavaScript errors *)

(** A thrown JavaScript [Error]: its [name] ("Error", "RemediationError", ...)
    and its [message]. *)
Record JsError := mkJsError { err_name : string; err_message : string }.

(** How an awaited promise settles. *)
Inductive Settled (A : Type) : Type :=
| Resolved (v : A)
| Rejected (e : JsError).
Arguments Resolved {A} v.
Arguments Rejected {A} e.

(** ** Generic helpers: ORDER BY as a stable insertion sort, JS strings *)

Section SortBy.
Context {A : Type} (le : A -> A -> bool).

Fixpoint insert_by (x : A) (l : list A) : list A :=
  match l with
  | [] => [x]
  | y :: ys => if le x y then x :: y :: ys else y :: insert_by x ys
  end.

Fixpoint sort_by (l : list A) : list A :=
  match l with
  | [] => []
  | x :: xs => insert_by x (sort_by xs)
  end.
End SortBy.

(** [a.join(sep)] on an array of strings. *)
Fixpoint join (sep : string) (l : list string) : string :=
  match l with
  | [] => ""
  | [x] => x
  | x :: xs => x ++ sep ++ join sep xs
  end.

(** A JS number (here always a non-negative integer) in a template literal. *)
Definition nat_to_string (n : nat) : string :=
  NilZero.string_of_uint (Nat.to_uint n).

(** [xs[0] ?? d] *)
Definition head_or {A} (d : A) (l : list A) : A :=
  match l with [] => d | x :: _ => x end.

(** ** OpsSpecialist (src/orchestrator/ops-specialist/index.ts) *)

Module Ops.

(** A row of the [followups] table of DB. *)
Record Followup := mkFollowup {
  fu_id : Z;
  fu_order_id : string;
  fu_type : string;
  fu_impact_level : Z;
  fu_file_path : option string;
  fu_message : string
}.

(** A row of the [operation_logs] table of DB. *)
Record OperationLog := mkOperationLog {
  op_id : Z;
  op_order_id : string;
  op_action : string
}.

(** The first argument of [githubRemediation.createIssue]. *)
Record IssueContext := mkIssueContext {
  ctx_order_id : option string;
  ctx_file_path : string;
  ctx_error_code : string;
  ctx_message : string
}.

(** One call of [githubRemediation.createIssue(env, context, note)]. *)
Record IssueCall := mkIssueCall { call_context : IssueContext; call_note : string }.

(** The bindings of [env] the module uses: the two DB tables, the clock
    ([new Date().toISOString()]) and the issue-tracking collaborator, which
    answers each issue-creation request with success or failure. *)
Record Env := mkEnv {
  followups : list Followup;
  operation_logs : list OperationLog;
  now_iso : string;
  tracker_accepts : IssueCall -> bool
}.

(** The computations of the module: they record every [createIssue] call in
    a log (state) and settle as a promise. *)
Definition OpsM (A : Type) := list IssueCall -> Settled A * list IssueCall.

Definition ret {A} (a : A) : OpsM A := fun log => (Resolved a, log).

Definition bind {A B} (m : OpsM A) (k : A -> OpsM B) : OpsM B :=
  fun log =>
    match m log with
    | (Resolved a, log') => k a log'
    | (Rejected e, log') => (Rejected e, log')
    end.

Notation "x <- m ;; k" := (bind m (fun x => k)) (at level 61, m at next level, right associativity).
Notation "m ;;; k" := (bind m (fun _ => k)) (at level 61, right associativity).

(** Modelled from the spec: [githubRemediation.createIssue]
    (orchestrator/worker/services/remediation/githubRemediation, not under
    src/). Section 4.4: it opens a tracking issue in the external issue
    system and fails with [RemediationError] if issue creation itself fails. *)
Definition createIssue (env : Env) (context : IssueContext) (note : string) : OpsM unit :=
  fun log =>
    let c := mkIssueCall context note in
    if tracker_accepts env c
    then (Resolved tt, (log ++ [c])%list)
    else (Rejected (mkJsError "RemediationError" "issue creation failed"), (log ++ [c])%list).

(** [resolveConflict(env, repo, branch, conflictFiles)] *)
Definition resolveConflict (env : Env) (repo branch : string) (conflictFiles : list string)
  : OpsM unit :=
  let note := "Conflict detected in " ++ repo ++ ":" ++ branch ++ " → "
              ++ join ", " conflictFiles in
  createIssue env
    (mkIssueContext None (head_or "unknown" conflictFiles) "merge_conflict" note)
    "Ops Specialist auto-detected conflict and opened an issue.".

(** The summary block of a delivery report. *)
Record Summary := mkSummary { issues : nat; ops_count : nat; last_updated : string }.

Record DeliveryReport := mkDeliveryReport {
  order_id : string;
  summary : Summary;
  report_followups : list Followup;
  operations : list OperationLog
}.

(** [ORDER BY impact_level ASC] *)
Definition impact_le (a b : Followup) : bool := (fu_impact_level a <=? fu_impact_level b)%Z.

(** [SELECT * FROM followups WHERE order_id = ? ORDER BY impact_level ASC] *)
Definition select_followups (env : Env) (orderId : string) : list Followup :=
  sort_by impact_le (filter (fun f => String.eqb (fu_order_id f) orderId) (followups env)).

(** [SELECT * FROM operation_logs WHERE order_id = ?] *)
Definition select_operation_logs (env : Env) (orderId : string) : list OperationLog :=
  filter (fun o => String.eqb (op_order_id o) orderId) (operation_logs env).

(** [generateDeliveryReport(env, orderId)] *)
Definition generateDeliveryReport (env : Env) (orderId : string) : OpsM DeliveryReport :=
  let results := select_followups env orderId in
  let ops := select_operation_logs env orderId in
  ret (mkDeliveryReport orderId
         (mkSummary (length results) (length ops) (now_iso env))
         results ops).

Record QAResult := mkQAResult { qa_report : DeliveryReport; qa_status : string }.

Definition is_blocked (f : Followup) : bool := String.eqb (fu_type f) "blocked".

(** [finalQA(env, orderId)] *)
Definition finalQA (env : Env) (orderId : string) : OpsM QAResult :=
  report <- generateDeliveryReport env orderId ;;
  let blocked := filter is_blocked (report_followups report) in
  (if (0 <? length blocked)%nat
   then createIssue env
          (mkIssueContext (Some orderId)
             (match blocked with
              | f :: _ => match fu_file_path f with Some p => p | None => "unknown" end
              | [] => "unknown"
              end)
             "final_qa_blocked"
             (nat_to_string (length blocked) ++ " unresolved blockers."))
          "Final QA failed — unresolved followups remain."
   else ret tt) ;;;
  ret (mkQAResult report (match length blocked with O => "passed" | S _ => "failed" end)).

(** The order has a followup of type 'blocked' in DB. *)
Definition has_blocked (env : Env) (orderId : string) : Prop :=
  exists f, In f (followups env) /\ fu_order_id f = orderId /\ fu_type f = "blocked".

End Ops.

(** ** HealthOps (src/unnamed/part_001: orchestrator/worker/entrypoints/HealthOps.ts) *)

Module Health.

(** A row of [schema.healthChecks]; nullable columns are options. *)
Record HealthCheckRow := mkHealthCheckRow {
  hc_id : Z;
  hc_healthCheckUuid : string;
  hc_triggerType : string;
  hc_triggerSource : option string;
  hc_status : option string;
  hc_totalWorkers : option Z;
  hc_completedWorkers : option Z;
  hc_passedWorkers : option Z;
  hc_failedWorkers : option Z;
  hc_overallHealthScore : option Q;
  hc_aiAnalysis : option string;
  hc_aiRecommendations : option string;
  hc_startedAt : option Z;
  hc_completedAt : option Z;
  hc_timeoutAt : option Z;
  hc_createdAt : option Z
}.

(** A row of [schema.workerHealthChecks]. *)
Record WorkerHealthCheckRow := mkWorkerHealthCheckRow {
  whc_id : Z;
  whc_workerCheckUuid : string;
  whc_healthCheckUuid : string;
  whc_workerName : string;
  whc_workerType : string;
  whc_workerUrl : option string;
  whc_status : option string;
  whc_overallStatus : option string;
  whc_healthScore : option Q;
  whc_createdAt : option Z;
  whc_completedAt : option Z
}.

(** DB_HEALTH: both tables in insertion order, and their autoincrement counters. *)
Record HealthDB := mkHealthDB {
  healthChecks : list HealthCheckRow;
  workerHealthChecks : list WorkerHealthCheckRow;
  next_hc_id : Z;
  next_whc_id : Z
}.

Definition emptyDB : HealthDB := mkHealthDB [] [] 1 1.

(** [interface HealthCheckResponse] *)
Record HealthCheckResponse := mkHealthCheckResponse {
  r_id : Z;
  r_healthCheckUuid : string;
  r_triggerType : string;
  r_triggerSource : option string;
  r_status : string;
  r_totalWorkers : Z;
  r_completedWorkers : Z;
  r_passedWorkers : Z;
  r_failedWorkers : Z;
  r_overallHealthScore : Q;
  r_aiAnalysis : option string;
  r_aiRecommendations : option string;
  r_startedAt : Z;
  r_completedAt : option Z;
  r_timeoutAt : option Z;
  r_createdAt : Z
}.

(** [interface WorkerHealthCheckResponse] *)
Record WorkerHealthCheckResponse := mkWorkerHealthCheckResponse {
  wr_id : Z;
  wr_workerCheckUuid : string;
  wr_healthCheckUuid : string;
  wr_workerName : string;
  wr_workerType : string;
  wr_workerUrl : option string;
  wr_status : string;
  wr_overallStatus : option string;
  wr_healthScore : Q;
  wr_createdAt : Z;
  wr_completedAt : option Z
}.

(** [interface PaginatedResponse<T>] *)
Record Pagination := mkPagination {
  limit : Z;
  offset : Z;
  total : Z;
  hasMore : bool
}.

Record PaginatedResponse (T : Type) := mkPaginatedResponse {
  data : list T;
  pagination : Pagination
}.
Arguments mkPaginatedResponse {T} data pagination.
Arguments data {T} _.
Arguments pagination {T} _.

Record OkResponse := mkOkResponse { ok : bool }.
Record IdResponse := mkIdResponse { id : Z }.

(** [x ?? d] *)
Definition coalesce {A} (x : option A) (d : A) : A :=
  match x with Some v => v | None => d end.

(** JS truthiness of an optional string parameter ([if (params.x)]). *)
Definition truthy (s : option string) : option string :=
  match s with Some v => if String.eqb v "" then None else Some v | None => None end.

(** SQLite's ordering of a nullable integer column: NULL sorts before every value. *)
Definition sql_le (a b : option Z) : bool :=
  match a, b with
  | None, _ => true
  | Some _, None => false
  | Some x, Some y => (x <=? y)%Z
  end.

(** [.limit(limit).offset(offset)] on SQLite: a negative LIMIT means no upper
    bound, a negative OFFSET counts as zero. *)
Definition limit_offset {A} (lim off : Z) (rows : list A) : list A :=
  let rest := skipn (Z.to_nat off) rows in
  if (lim <? 0)%Z then rest else firstn (Z.to_nat lim) rest.

(** The object literal built from a health check row ([Date.now()] is [now]). *)
Definition hc_response (now : Z) (check : HealthCheckRow) : HealthCheckResponse :=
  mkHealthCheckResponse
    (hc_id check) (hc_healthCheckUuid check) (hc_triggerType check)
    (hc_triggerSource check)
    (coalesce (hc_status check) "running")
    (coalesce (hc_totalWorkers check) 0%Z)
    (coalesce (hc_completedWorkers check) 0%Z)
    (coalesce (hc_passedWorkers check) 0%Z)
    (coalesce (hc_failedWorkers check) 0%Z)
    (coalesce (hc_overallHealthScore check) 0%Q)
    (hc_aiAnalysis check) (hc_aiRecommendations check)
    (coalesce (hc_startedAt check) now)
    (hc_completedAt check) (hc_timeoutAt check)
    (coalesce (hc_createdAt check) now).

(** The object literal built from a worker health check row. *)
Definition whc_response (now : Z) (check : WorkerHealthCheckRow) : WorkerHealthCheckResponse :=
  mkWorkerHealthCheckResponse
    (whc_id check) (whc_workerCheckUuid check) (whc_healthCheckUuid check)
    (whc_workerName check) (whc_workerType check) (whc_workerUrl check)
    (coalesce (whc_status check) "pending")
    (whc_overallStatus check)
    (coalesce (whc_healthScore check) 0%Q)
    (coalesce (whc_createdAt check) now)
    (whc_completedAt check).

(** [getHealthCheck({healthCheckUuid})] *)
Definition getHealthCheck (db : HealthDB) (healthCheckUuid : string) (now : Z)
  : Settled (option HealthCheckResponse) :=
  match firstn 1 (filter (fun c => String.eqb (hc_healthCheckUuid c) healthCheckUuid)
                    (healthChecks db)) with
  | [] => Resolved None
  | check :: _ => Resolved (Some (hc_response now check))
  end.

Record GetHealthChecksParams := mkGetHealthChecksParams {
  p_triggerType : option string;
  p_status : option string;
  p_limit : option Z;
  p_offset : option Z
}.

(** [and(...conditions)]: the WHERE clause of both queries of [getHealthChecks]. *)
Definition hc_conditions (params : GetHealthChecksParams) (c : HealthCheckRow) : bool :=
  (match truthy (p_triggerType params) with
   | Some t => String.eqb (hc_triggerType c) t
   | None => true
   end) &&
  (match truthy (p_status params) with
   | Some s => match hc_status c with Some s' => String.eqb s' s | None => false end
   | None => true
   end).

(** [desc(schema.healthChecks.startedAt)] *)
Definition startedAt_desc (a b : HealthCheckRow) : bool :=
  sql_le (hc_startedAt b) (hc_startedAt a).

(** [getHealthChecks(params)] *)
Definition getHealthChecks (db : HealthDB) (params : GetHealthChecksParams) (now : Z)
  : PaginatedResponse HealthCheckResponse :=
  let lim := coalesce (p_limit params) 50%Z in
  let off := coalesce (p_offset params) 0%Z in
  let checks := limit_offset lim off
                  (sort_by startedAt_desc (filter (hc_conditions params) (healthChecks db))) in
  let allChecks := filter (hc_conditions params) (healthChecks db) in
  let tot := Z.of_nat (length allChecks) in
  mkPaginatedResponse (map (hc_response now) checks)
    (mkPagination lim off tot (off + lim <? tot)%Z).

(** [getWorkerHealthCheck({workerCheckUuid})] *)
Definition getWorkerHealthCheck (db : HealthDB) (workerCheckUuid : string) (now : Z)
  : Settled (option WorkerHealthCheckResponse) :=
  match firstn 1 (filter (fun c => String.eqb (whc_workerCheckUuid c) workerCheckUuid)
                    (workerHealthChecks db)) with
  | [] => Resolved None
  | check :: _ => Resolved (Some (whc_response now check))
  end.

(** [desc(schema.workerHealthChecks.createdAt)] *)
Definition createdAt_desc (a b : WorkerHealthCheckRow) : bool :=
  sql_le (whc_createdAt b) (whc_createdAt a).

Definition of_run (healthCheckUuid : string) (c : WorkerHealthCheckRow) : bool :=
  String.eqb (whc_healthCheckUuid c) healthCheckUuid.

(** [getWorkerHealthChecks({healthCheckUuid, limit, offset})] *)
Definition getWorkerHealthChecks (db : HealthDB) (healthCheckUuid : string)
  (p_lim p_off : option Z) (now : Z) : PaginatedResponse WorkerHealthCheckResponse :=
  let lim := coalesce p_lim 100%Z in
  let off := coalesce p_off 0%Z in
  let checks := limit_offset lim off
                  (sort_by createdAt_desc (filter (of_run healthCheckUuid) (workerHealthChecks db))) in
  let allChecks := filter (of_run healthCheckUuid) (workerHealthChecks db) in
  let tot := Z.of_nat (length allChecks) in
  mkPaginatedResponse (map (whc_response now) checks)
    (mkPagination lim off tot (off + lim <? tot)%Z).

(** Modelled from the spec: the constraints of the DB_HEALTH schema
    (orchestrator/worker/database/health/schema, not under src/). Section 3:
    run identifiers and check identifiers are unique, and a result is
    foreign-keyed to its parent run by run identifier; D1 enforces the
    constraints and rejects a violating INSERT with a SQLITE_CONSTRAINT error.
    Section 6: timestamps are epoch milliseconds, set by the store on insert. *)
Definition run_exists (db : HealthDB) (healthCheckUuid : string) : bool :=
  existsb (fun c => String.eqb (hc_healthCheckUuid c) healthCheckUuid) (healthChecks db).

Definition check_exists (db : HealthDB) (workerCheckUuid : string) : bool :=
  existsb (fun c => String.eqb (whc_workerCheckUuid c) workerCheckUuid) (workerHealthChecks db).

Definition unique_failed : JsError :=
  mkJsError "Error" "D1_ERROR: UNIQUE constraint failed: SQLITE_CONSTRAINT".

Definition foreign_key_failed : JsError :=
  mkJsError "Error" "D1_ERROR: FOREIGN KEY constraint failed: SQLITE_CONSTRAINT".

(** An operation of the entrypoint on DB_HEALTH. *)
Definition HealthM (A : Type) := HealthDB -> Settled A * HealthDB.

Record CreateHealthCheckParams := mkCreateHealthCheckParams {
  c_healthCheckUuid : string;
  c_triggerType : string;
  c_triggerSource : option string;
  c_totalWorkers : option Z;
  c_timeoutAt : option Z
}.

(** [createHealthCheck(params)]: [insert(...).values({...}).returning()] *)
Definition createHealthCheck (params : CreateHealthCheckParams) (now : Z)
  : HealthM IdResponse :=
  fun db =>
    if run_exists db (c_healthCheckUuid params) then (Rejected unique_failed, db)
    else
      let check := mkHealthCheckRow (next_hc_id db) (c_healthCheckUuid params)
                     (c_triggerType params) (c_triggerSource params)
                     (Some "running") (Some (coalesce (c_totalWorkers params) 0%Z))
                     None None None None None None
                     (Some now) None (c_timeoutAt params) (Some now) in
      (Resolved (mkIdResponse (hc_id check)),
       mkHealthDB (healthChecks db ++ [check]) (workerHealthChecks db)
                  (next_hc_id db + 1) (next_whc_id db)).

Record CreateWorkerHealthCheckParams := mkCreateWorkerHealthCheckParams {
  cw_workerCheckUuid : string;
  cw_healthCheckUuid : string;
  cw_workerName : string;
  cw_workerType : string;
  cw_workerUrl : option string
}.

(** [createWorkerHealthCheck(params)]: a plain insert of a pending row. *)
Definition createWorkerHealthCheck (params : CreateWorkerHealthCheckParams) (now : Z)
  : HealthM IdResponse :=
  fun db =>
    if check_exists db (cw_workerCheckUuid params) then (Rejected unique_failed, db)
    else if negb (run_exists db (cw_healthCheckUuid params)) then (Rejected foreign_key_failed, db)
    else
      let check := mkWorkerHealthCheckRow (next_whc_id db) (cw_workerCheckUuid params)
                     (cw_healthCheckUuid params) (cw_workerName params)
                     (cw_workerType params) (cw_workerUrl params)
                     (Some "pending") None None (Some now) None in
      (Resolved (mkIdResponse (whc_id check)),
       mkHealthDB (healthChecks db) (workerHealthChecks db ++ [check])
                  (next_hc_id db) (next_whc_id db + 1)).

(** The optional fields of [updateHealthCheck]'s parameters, which are also
    its [updateData: Partial<...>] (a field is set iff it is not undefined). *)
Record HealthCheckUpdate := mkHealthCheckUpdate {
  u_status : option string;
  u_completedWorkers : option Z;
  u_passedWorkers : option Z;
  u_failedWorkers : option Z;
  u_overallHealthScore : option Q;
  u_aiAnalysis : option string;
  u_aiRecommendations : option string;
  u_completedAt : option Z
}.

Definition set_field {A} (v : option A) (old : option A) : option A :=
  match v with Some x => Some x | None => old end.

(** [.set(updateData)] on one row *)
Definition apply_hc_update (u : HealthCheckUpdate) (c : HealthCheckRow) : HealthCheckRow :=
  mkHealthCheckRow (hc_id c) (hc_healthCheckUuid c) (hc_triggerType c) (hc_triggerSource c)
    (set_field (u_status u) (hc_status c)) (hc_totalWorkers c)
    (set_field (u_completedWorkers u) (hc_completedWorkers c))
    (set_field (u_passedWorkers u) (hc_passedWorkers c))
    (set_field (u_failedWorkers u) (hc_failedWorkers c))
    (set_field (u_overallHealthScore u) (hc_overallHealthScore c))
    (set_field (u_aiAnalysis u) (hc_aiAnalysis c))
    (set_field (u_aiRecommendations u) (hc_aiRecommendations c))
    (hc_startedAt c)
    (set_field (u_completedAt u) (hc_completedAt c))
    (hc_timeoutAt c) (hc_createdAt c).

Definition is_some {A} (o : option A) : bool := match o with Some _ => true | None => false end.

Definition hc_update_nonempty (u : HealthCheckUpdate) : bool :=
  is_some (u_status u) || is_some (u_completedWorkers u) || is_some (u_passedWorkers u)
  || is_some (u_failedWorkers u) || is_some (u_overallHealthScore u)
  || is_some (u_aiAnalysis u) || is_some (u_aiRecommendations u) || is_some (u_completedAt u).

(** drizzle-orm's [update(t).set(values)] goes through [mapUpdateSet], which
    drops undefined values and throws [new Error('No values to set')] when
    none is left. *)
Definition no_values_to_set : JsError := mkJsError "Error" "No values to set".

(** [updateHealthCheck(params)] *)
Definition updateHealthCheck (healthCheckUuid : string) (u : HealthCheckUpdate)
  : HealthM OkResponse :=
  fun db =>
    if negb (hc_update_nonempty u) then (Rejected no_values_to_set, db)
    else
      (Resolved (mkOkResponse true),
       mkHealthDB
         (map (fun c => if String.eqb (hc_healthCheckUuid c) healthCheckUuid
                        then apply_hc_update u c else c) (healthChecks db))
         (workerHealthChecks db) (next_hc_id db) (next_whc_id db)).

(** The optional fields of [updateWorkerHealthCheck]'s parameters. *)
Record WorkerHealthCheckUpdate := mkWorkerHealthCheckUpdate {
  wu_status : option string;
  wu_overallStatus : option string;
  wu_healthScore : option Q;
  wu_completedAt : option Z
}.

Definition apply_whc_update (u : WorkerHealthCheckUpdate) (c : WorkerHealthCheckRow)
  : WorkerHealthCheckRow :=
  mkWorkerHealthCheckRow (whc_id c) (whc_workerCheckUuid c) (whc_healthCheckUuid c)
    (whc_workerName c) (whc_workerType c) (whc_workerUrl c)
    (set_field (wu_status u) (whc_status c))
    (set_field (wu_overallStatus u) (whc_overallStatus c))
    (set_field (wu_healthScore u) (whc_healthScore c))
    (whc_createdAt c)
    (set_field (wu_completedAt u) (whc_completedAt c)).

Definition whc_update_nonempty (u : WorkerHealthCheckUpdate) : bool :=
  is_some (wu_status u) || is_some (wu_overallStatus u) || is_some (wu_healthScore u)
  || is_some (wu_completedAt u).

(** [updateWorkerHealthCheck(params)] *)
Definition updateWorkerHealthCheck (workerCheckUuid : string) (u : WorkerHealthCheckUpdate)
  : HealthM OkResponse :=
  fun db =>
    if negb (whc_update_nonempty u) then (Rejected no_values_to_set, db)
    else
      (Resolved (mkOkResponse true),
       mkHealthDB (healthChecks db)
         (map (fun c => if String.eqb (whc_workerCheckUuid c) workerCheckUuid
                        then apply_whc_update u c else c) (workerHealthChecks db))
         (next_hc_id db) (next_whc_id db)).

(** The store states the entrypoint can produce from an empty database. *)
Inductive reachable : HealthDB -> Prop :=
| reach_empty : reachable emptyDB
| reach_createHealthCheck db p now :
    reachable db -> reachable (snd (createHealthCheck p now db))
| reach_createWorkerHealthCheck db p now :
    reachable db -> reachable (snd (createWorkerHealthCheck p now db))
| reach_updateHealthCheck db uuid u :
    reachable db -> reachable (snd (updateHealthCheck uuid u db))
| reach_updateWorkerHealthCheck db uuid u :
    reachable db -> reachable (snd (updateWorkerHealthCheck uuid u db)).

(** One write operation of the entrypoint. *)
Inductive health_step : HealthDB -> HealthDB -> Prop :=
| step_createHealthCheck db p now : health_step db (snd (createHealthCheck p now db))
| step_createWorkerHealthCheck db p now : health_step db (snd (createWorkerHealthCheck p now db))
| step_updateHealthCheck db uuid u : health_step db (snd (updateHealthCheck uuid u db))
| step_updateWorkerHealthCheck db uuid u : health_step db (snd (updateWorkerHealthCheck uuid u db)).

(** The columns of a run that [updateHealthCheck] has no parameter for. *)
Definition hc_fixed (c : HealthCheckRow)
  : Z * string * string * option string * option Z * option Z * option Z * option Z :=
  (hc_id c, hc_healthCheckUuid c, hc_triggerType c, hc_triggerSource c,
   hc_totalWorkers c, hc_startedAt c, hc_timeoutAt c, hc_createdAt c).

(** The columns of a result that [updateWorkerHealthCheck] has no parameter for. *)
Definition whc_fixed (c : WorkerHealthCheckRow)
  : Z * string * string * string * string * option string * option Z :=
  (whc_id c, whc_workerCheckUuid c, whc_healthCheckUuid c, whc_workerName c,
   whc_workerType c, whc_workerUrl c, whc_createdAt c).

(** Every result's run identifier names a stored run. *)
Definition results_reference_runs (db : HealthDB) : Prop :=
  forall w, In w (workerHealthChecks db) -> run_exists db (whc_healthCheckUuid w) = true.

End Health.

(** ** UIFactoryAgent (src/apps/factories/ui-factory/worker/agents/UiFactoryAgent.ts) *)

Module UiFactory.

(** A JavaScript value as the agent sees it (an AI binding result, or a
    value produced by [JSON.parse]); objects are association lists. *)
#[warnings="-register-all"]
Inductive JSValue : Type :=
| JUndefined
| JNull
| JBool (b : bool)
| JNumber (n : Q)
| JString (s : string)
| JArray (items : list JSValue)
| JObject (fields : list (string * JSValue)).

(** [obj[key]]: an absent property reads as [undefined]. *)
Fixpoint get (fields : list (string * JSValue)) (key : string) : JSValue :=
  match fields with
  | [] => JUndefined
  | (k, v) :: rest => if String.eqb k key then v else get rest key
  end.

(** A thrown value: an [Error] instance with its message, or anything else. *)
Inductive Thrown : Type :=
| ThrownError (message : string)
| ThrownOther (v : JSValue).

(** How an awaited call inside [processTask] ends. *)
Inductive Outcome (A : Type) : Type :=
| Ok (v : A)
| Throw (t : Thrown).
Arguments Ok {A} v.
Arguments Throw {A} t.

(** [UITaskInput] *)
Record UITaskInput := mkUITaskInput {
  task : string;
  description : string;
  requirements : option (list string)
}.

(** [UIResult] *)
Record UIResult := mkUIResult {
  status : string;
  result : string;
  components : option (list string);
  error : option string
}.

(** The second argument of [aiBinding.run]. *)
Record AiRunInput := mkAiRunInput {
  prompt : string;
  temperature : Q;
  max_output_tokens : Z
}.

(** The [AI] binding: [run(model, input)] resolves to a value or throws. *)
Definition Ai := string -> AiRunInput -> Outcome JSValue.

(** [UIFactoryEnv] (the agent namespace binding is not used by [processTask]). *)
Record UIFactoryEnv := mkUIFactoryEnv {
  AI : option Ai;
  DEFAULT_MODEL : option string
}.

Definition FALLBACK_MODEL : string := "@cf/meta/llama-3.3-70b-instruct-fp8-fast".

(** A newline, and the two characters (backslash, double quote) that the
    template literal renders for each of its triple-backslash escapes. *)
Definition nl : string := String (Ascii.ascii_of_nat 10) EmptyString.
Definition bq : string :=
  String (Ascii.ascii_of_nat 92) (String (Ascii.ascii_of_nat 34) EmptyString).
Definition quoted (s : string) : string := bq ++ s ++ bq.

(** [buildGenerationPrompt(input)] *)
Definition buildGenerationPrompt (input : UITaskInput) : string :=
  let reqs := match requirements input with
              | Some (r :: rs) => "Additional requirements: " ++ join ", " (r :: rs) ++ "."
              | _ => ""
              end in
  "You are a UI Factory Agent specialized in generating production-ready React (TypeScript) components using Tailwind CSS."
  ++ nl ++ nl ++
  "Return a JSON object with keys: " ++ quoted "status" ++ ", " ++ quoted "result" ++ ", "
  ++ quoted "components" ++ ", and optionally " ++ quoted "error" ++ "." ++ nl ++
  "- status must be " ++ quoted "complete" ++ " when code generation succeeds or "
  ++ quoted "error" ++ " if you encounter a blocking issue." ++ nl ++
  "- result must contain the full component implementation (React + Tailwind CSS)." ++ nl ++
  "- components should list the component names declared in the code." ++ nl ++
  "- error should only be present when status is " ++ quoted "error" ++ "." ++ nl ++ nl ++
  "Task: " ++ task input ++ nl ++
  "Description: " ++ description input ++ nl ++
  reqs ++ nl ++ nl ++
  "Ensure the returned value is valid JSON, without additional commentary.".

(** The zod schema [UIResultSchema] and its [safeParse]: an object (not an
    array, not null) whose [status] is "complete" or "error", whose [result]
    is a string, and whose optional [components] (array of strings) and
    [error] (string) may be undefined; unknown keys are stripped. *)
Definition zod_string (v : JSValue) : option string :=
  match v with JString s => Some s | _ => None end.

Definition zod_optional {A} (p : JSValue -> option A) (v : JSValue) : option (option A) :=
  match v with JUndefined => Some None | _ => option_map Some (p v) end.

Fixpoint zod_string_items (l : list JSValue) : option (list string) :=
  match l with
  | [] => Some []
  | x :: xs =>
      match zod_string x, zod_string_items xs with
      | Some s, Some ss => Some (s :: ss)
      | _, _ => None
      end
  end.

Definition zod_string_array (v : JSValue) : option (list string) :=
  match v with JArray l => zod_string_items l | _ => None end.

Definition zod_status (v : JSValue) : option string :=
  match v with
  | JString s => if String.eqb s "complete" || String.eqb s "error" then Some s else None
  | _ => None
  end.

Definition UIResultSchema_parse (v : JSValue) : option UIResult :=
  match v with
  | JObject fs =>
      match zod_status (get fs "status"), zod_string (get fs "result"),
            zod_optional zod_string_array (get fs "components"),
            zod_optional zod_string (get fs "error") with
      | Some s, Some r, Some c, Some e => Some (mkUIResult s r c e)
      | _, _, _, _ => None
      end
  | _ => None
  end.

Section Platform.
(** [JSON.parse] ([None]: it throws a SyntaxError) and the [message] of a
    failed zod parse, both provided by the platform and its libraries. *)
Variable JSON_parse : string -> option JSValue.
Variable zod_error_message : JSValue -> string.

(** [safeJsonParse(payload)] *)
Definition safeJsonParse (payload : string) : Outcome JSValue :=
  match JSON_parse payload with
  | Some v => Ok v
  | None => Throw (ThrownError "Failed to parse AI response as JSON")
  end.

Definition no_payload {A} : Outcome A :=
  Throw (ThrownError "AI response did not include a parsable JSON payload").

(** [parseAiStructuredResponse(aiResult)]: a string is parsed; an object
    (arrays included, [null] excluded) is searched for a string [response],
    then for a [results] array whose first element has a string [response]. *)
Definition parseAiStructuredResponse (aiResult : JSValue) : Outcome JSValue :=
  match aiResult with
  | JString s => safeJsonParse s
  | JObject fs =>
      match get fs "response" with
      | JString r => safeJsonParse r
      | _ =>
          match get fs "results" with
          | JArray (JObject first :: _) =>
              match get first "response" with
              | JString r => safeJsonParse r
              | _ => no_payload
              end
          | _ => no_payload
          end
      end
  | _ => no_payload
  end.

(** The [catch] block of [processTask]. *)
Definition error_result (t : Thrown) : UIResult :=
  mkUIResult "error" "" None
    (Some (match t with ThrownError m => m | ThrownOther _ => "Unknown error occurred" end)).

(** [processTask(input)] of the agent whose [this.env] is [env]. *)
Definition processTask (env : UIFactoryEnv) (input : UITaskInput) : UIResult :=
  let prompt := buildGenerationPrompt input in
  match AI env with
  | None => error_result (ThrownError "AI binding is not available for UIFactoryAgent")
  | Some aiBinding =>
      let modelName := Health.coalesce (DEFAULT_MODEL env) FALLBACK_MODEL in
      match aiBinding modelName (mkAiRunInput prompt (1 # 5) 1200) with
      | Throw t => error_result t
      | Ok aiResult =>
          match parseAiStructuredResponse aiResult with
          | Throw t => error_result t
          | Ok structured =>
              match UIResultSchema_parse structured with
              | None => error_result (ThrownError ("AI response failed validation: "
                                                   ++ zod_error_message structured))
              | Some validated => validated
              end
          end
      end
  end.
End Platform.

End UiFactory.

(** * Proofs *)

(** ** ORDER BY and LIMIT/OFFSET *)

Section SortByFacts.
Context {A : Type} (le : A -> A -> bool).
Hypothesis le_total : forall a b, le a b = false -> le b a = true.

Lemma insert_by_hdrel x y l :
  le y x = true -> HdRel (fun a b => le a b = true) y l -> HdRel (fun a b => le a b = true) y (insert_by le x l).
Proof.
  intros Hyx Hd. destruct l as [|z zs]; simpl.
  - constructor. exact Hyx.
  - destruct (le x z); constructor; [exact Hyx|]. now inversion Hd.
Qed.

Lemma insert_by_sorted x l : Sorted (fun a b => le a b = true) l ->
  Sorted (fun a b => le a b = true) (insert_by le x l).
Proof.
  induction l as [|y ys IH]; simpl; intros Hs.
  - repeat constructor.
  - destruct (le x y) eqn:Exy.
    + constructor; [exact Hs | constructor; exact Exy].
    + inversion Hs as [|? ? Hys Hd]; subst.
      constructor; [now apply IH|].
      apply insert_by_hdrel; [now apply le_total | exact Hd].
Qed.

Lemma sort_by_sorted l : Sorted (fun a b => le a b = true) (sort_by le l).
Proof.
  induction l as [|x xs IH]; simpl; [constructor|]. now apply insert_by_sorted.
Qed.
End SortByFacts.

Lemma insert_by_perm {A} (le : A -> A -> bool) x l :
  Permutation (x :: l) (insert_by le x l).
Proof.
  induction l as [|y ys IH]; simpl; [reflexivity|].
  destruct (le x y); [reflexivity|].
  rewrite perm_swap. now constructor.
Qed.

Lemma sort_by_perm {A} (le : A -> A -> bool) l : Permutation l (sort_by le l).
Proof.
  induction l as [|x xs IH]; simpl; [constructor|].
  rewrite <- insert_by_perm. now constructor.
Qed.

Lemma sorted_skipn {A} (R : A -> A -> Prop) n l : Sorted R l -> Sorted R (skipn n l).
Proof.
  revert l; induction n as [|n IH]; intros [|x xs] Hs; simpl; auto.
  apply IH. now inversion Hs.
Qed.

Lemma sorted_firstn {A} (R : A -> A -> Prop) n l : Sorted R l -> Sorted R (firstn n l).
Proof.
  revert n; induction l as [|x xs IH]; intros [|n] Hs; simpl; auto.
  inversion Hs as [|? ? Hxs Hd]; subst.
  constructor; [now apply IH|].
  destruct xs as [|y ys], n as [|n]; simpl; constructor. now inversion Hd.
Qed.

Lemma sorted_map {A B} (R : A -> A -> Prop) (R' : B -> B -> Prop) (f : A -> B) l :
  (forall a b, In a l -> In b l -> R a b -> R' (f a) (f b)) ->
  Sorted R l -> Sorted R' (map f l).
Proof.
  induction l as [|x xs IH]; intros Hf Hs; simpl; [constructor|].
  inversion Hs as [|? ? Hxs Hd]; subst. constructor.
  - apply IH; auto. intros a b Ha Hb. apply Hf; simpl; auto.
  - destruct xs as [|y ys]; simpl; constructor.
    inversion Hd; subst. apply Hf; simpl; auto.
Qed.

Lemma limit_offset_sorted {A} (R : A -> A -> Prop) lim off (l : list A) :
  Sorted R l -> Sorted R (Health.limit_offset lim off l).
Proof.
  intros Hs. unfold Health.limit_offset.
  destruct (lim <? 0)%Z; [|apply sorted_firstn]; now apply sorted_skipn.
Qed.

Lemma in_skipn_in {A} n (l : list A) x : In x (skipn n l) -> In x l.
Proof.
  intros Hx. rewrite <- (firstn_skipn n l). apply in_or_app. now right.
Qed.

Lemma limit_offset_incl {A} lim off (l : list A) :
  incl (Health.limit_offset lim off l) l.
Proof.
  unfold Health.limit_offset. intros x Hx.
  destruct (lim <? 0)%Z.
  - now apply in_skipn_in in Hx.
  - apply in_skipn_in with (n := Z.to_nat off).
    rewrite <- (firstn_skipn (Z.to_nat lim) (skipn _ l)). apply in_or_app. now left.
Qed.

Lemma sorted_weaken {A} (R R' : A -> A -> Prop) l :
  (forall a b, R a b -> R' a b) -> Sorted R l -> Sorted R' l.
Proof.
  intros HR Hs. induction Hs as [|x xs Hxs IH Hd]; constructor; auto.
  destruct Hd; constructor; auto.
Qed.

(** ** OpsSpecialist *)

Module OpsProofs.
Import Ops.

Lemma impact_le_total a b : impact_le a b = false -> impact_le b a = true.
Proof. unfold impact_le. intros H. apply Z.leb_gt in H. apply Z.leb_le. lia. Qed.

Lemma in_select_followups env orderId f :
  In f (select_followups env orderId) <-> In f (followups env) /\ fu_order_id f = orderId.
Proof.
  unfold select_followups. split; intros H.
  - eapply Permutation_in in H; [|symmetry; apply sort_by_perm].
    apply filter_In in H as [H1 H2]. apply String.eqb_eq in H2. auto.
  - eapply Permutation_in; [apply sort_by_perm|].
    apply filter_In. destruct H as [H1 H2]. split; auto. now apply String.eqb_eq.
Qed.

Lemma has_blocked_iff env orderId :
  has_blocked env orderId <->
  exists f, In f (filter is_blocked (select_followups env orderId)).
Proof.
  unfold has_blocked, is_blocked. split.
  - intros (f & Hin & Ho & Ht). exists f. apply filter_In.
    split; [now apply in_select_followups | now apply String.eqb_eq].
  - intros (f & Hf). apply filter_In in Hf as [Hf Ht].
    apply in_select_followups in Hf as [Hf Ho]. apply String.eqb_eq in Ht. eauto.
Qed.

(** C1: finalQA returns 'failed' iff the order has a followup of type
    'blocked', and 'passed' otherwise; when there is one, it dispatches one
    issue whose file path is the first blocked item's (or 'unknown' when the
    row has none) and whose message carries the blocked count. When the
    tracker accepts the issue, finalQA does return its verdict. *)
Theorem finalQA_verdict env orderId log :
  let blocked := filter is_blocked (select_followups env orderId) in
  snd (finalQA env orderId log) =
    (log ++ match blocked with
            | [] => []
            | f :: _ =>
                [mkIssueCall
                   (mkIssueContext (Some orderId)
                      (match fu_file_path f with Some p => p | None => "unknown" end)
                      "final_qa_blocked"
                      (nat_to_string (length blocked) ++ " unresolved blockers."))
                   "Final QA failed — unresolved followups remain."]
            end)%list /\
  (forall r, fst (finalQA env orderId log) = Resolved r ->
     (qa_status r = "failed" <-> has_blocked env orderId) /\
     (qa_status r = "passed" <-> ~ has_blocked env orderId)) /\
  ((forall c, tracker_accepts env c = true) ->
     exists r, fst (finalQA env orderId log) = Resolved r).
Proof.
  intros blocked. pose proof (has_blocked_iff env orderId) as Hiff.
  unfold finalQA, bind, generateDeliveryReport, ret, createIssue. simpl.
  fold blocked in Hiff |- *.
  destruct blocked as [|f fs] eqn:Eb; simpl.
  - split; [|split].
    + now rewrite app_nil_r.
    + intros r Hr. inversion Hr; subst; simpl. split; split; intros H.
      * discriminate H.
      * apply Hiff in H as [x []].
      * intros Hb. apply Hiff in Hb as [x []].
      * reflexivity.
    + intros _. eexists; reflexivity.
  - assert (Hb : has_blocked env orderId) by (apply Hiff; exists f; now left).
    destruct (tracker_accepts env _) eqn:Et; simpl.
    + split; [|split]; auto.
      * intros r Hr. inversion Hr; subst; simpl. split; split; intros H; auto.
        -- discriminate H.
        -- contradiction.
      * intros _. eexists; reflexivity.
    + split; [|split]; auto.
      * intros r Hr. discriminate Hr.
      * intros Hall. rewrite Hall in Et. discriminate Et.
Qed.

(** C2 (as stated, refuted): for an order with a blocked followup whose
    issue creation fails, finalQA rejects with the RemediationError and
    returns no verdict. *)
Lemma finalQA_remediation_failure_rejects :
  let env := mkEnv [mkFollowup 1 "o1" "blocked" 2 (Some "src/app.ts") "fix it"] []
               "2026-01-01T00:00:00.000Z" (fun _ => false) in
  has_blocked env "o1" /\
  fst (finalQA env "o1" []) = Rejected (mkJsError "RemediationError" "issue creation failed") /\
  (forall r, fst (finalQA env "o1" []) <> Resolved r).
Proof.
  intros env. split; [|split].
  - exists (mkFollowup 1 "o1" "blocked" 2 (Some "src/app.ts") "fix it").
    repeat split. now left.
  - reflexivity.
  - intros r H. vm_compute in H. discriminate H.
Qed.

(** C2 (amended): for an order with a blocked followup, finalQA returns
    the verdict 'failed' when issue creation succeeds; when it fails,
    finalQA does not catch the RemediationError and rejects with it. *)
Theorem finalQA_remediation_outcome env orderId log :
  has_blocked env orderId ->
  ((forall c, tracker_accepts env c = true) ->
     exists r, fst (finalQA env orderId log) = Resolved r /\ qa_status r = "failed") /\
  ((forall c, tracker_accepts env c = false) ->
     fst (finalQA env orderId log) =
       Rejected (mkJsError "RemediationError" "issue creation failed")).
Proof.
  intros Hb. apply has_blocked_iff in Hb as [f0 Hf0].
  unfold finalQA, bind, generateDeliveryReport, ret, createIssue. simpl.
  destruct (filter is_blocked (select_followups env orderId)) as [|f fs]; [destruct Hf0|].
  simpl. split; intros Hall; rewrite Hall; simpl; [eexists; split; reflexivity|reflexivity].
Qed.

Lemma finalQA_remediation_outcome_witness :
  let env := mkEnv [mkFollowup 1 "o1" "blocked" 2 None "fix it"] []
               "2026-01-01T00:00:00.000Z" (fun _ => true) in
  has_blocked env "o1" /\
  (exists r, fst (finalQA env "o1" []) = Resolved r /\ qa_status r = "failed").
Proof.
  intros env.
  assert (Hb : has_blocked env "o1")
    by (exists (mkFollowup 1 "o1" "blocked" 2 None "fix it"); repeat split; now left).
  split; [exact Hb|].
  apply (proj1 (finalQA_remediation_outcome env "o1" [] Hb)). intros c. reflexivity.
Defined.

(** C5: resolving a non-empty list of conflicting files dispatches exactly
    one issue, with error code 'merge_conflict' and the first file as its
    file path (so ["a.ts";"b.ts"] yields one issue for "a.ts"). *)
Theorem resolveConflict_single_issue env repo branch f fs log :
  exists c,
    snd (resolveConflict env repo branch (f :: fs) log) = (log ++ [c])%list /\
    ctx_error_code (call_context c) = "merge_conflict" /\
    ctx_file_path (call_context c) = f.
Proof.
  unfold resolveConflict, createIssue.
  destruct (tracker_accepts env _); eexists; split; try reflexivity; split; reflexivity.
Qed.

(** C7: the report's followups are the order's followups sorted by
    ascending impact level, and the summary counts are the lengths of the
    followups and operation-log lists of the report. *)
Theorem generateDeliveryReport_sorted_counts env orderId log :
  exists r,
    generateDeliveryReport env orderId log = (Resolved r, log) /\
    Sorted (fun a b => (fu_impact_level a <= fu_impact_level b)%Z) (report_followups r) /\
    Permutation (report_followups r)
      (filter (fun f => String.eqb (fu_order_id f) orderId) (followups env)) /\
    operations r = select_operation_logs env orderId /\
    issues (summary r) = length (report_followups r) /\
    ops_count (summary r) = length (operations r).
Proof.
  eexists. split; [reflexivity|]. simpl. repeat split.
  - apply sorted_weaken with (R := fun a b => impact_le a b = true).
    + intros a b H. now apply Z.leb_le.
    + apply sort_by_sorted, impact_le_total.
  - symmetry. apply sort_by_perm.
Qed.

End OpsProofs.

(** ** HealthOps *)

Module HealthProofs.
Import Health.

Lemma sql_le_total a b : sql_le a b = false -> sql_le b a = true.
Proof.
  destruct a as [x|], b as [y|]; simpl; try discriminate; auto.
  intros H. apply Z.leb_gt in H. apply Z.leb_le. lia.
Qed.

Lemma startedAt_desc_total a b : startedAt_desc a b = false -> startedAt_desc b a = true.
Proof. apply sql_le_total. Qed.

Lemma createdAt_desc_total a b : createdAt_desc a b = false -> createdAt_desc b a = true.
Proof. apply sql_le_total. Qed.

Lemma limit_offset_length {A} lim off (l : list A) :
  (0 <= lim)%Z -> (Z.of_nat (length (limit_offset lim off l)) <= lim)%Z.
Proof.
  intros H. unfold limit_offset.
  replace (lim <? 0)%Z with false by (symmetry; apply Z.ltb_ge; lia).
  pose proof (firstn_le_length (Z.to_nat lim) (skipn (Z.to_nat off) l)). lia.
Qed.

Lemma filter_nil_existsb {A} (p : A -> bool) l :
  filter p l = [] <-> existsb p l = false.
Proof.
  induction l as [|x xs IH]; simpl; [tauto|].
  destruct (p x); simpl; [split; discriminate|exact IH].
Qed.

Lemma firstn_one_nil {A} (l : list A) : firstn 1 l = [] <-> l = [].
Proof. destruct l; simpl; split; congruence. Qed.

Lemma map_unmatched {A} (p : A -> bool) (g : A -> A) l :
  existsb p l = false -> map (fun c => if p c then g c else c) l = l.
Proof.
  induction l as [|x xs IH]; simpl; [reflexivity|].
  destruct (p x); simpl; [discriminate|]. intros H. now rewrite IH.
Qed.

Lemma existsb_map_same {A} (key : A -> string) (g : A -> A) x l :
  (forall c, key (g c) = key c) ->
  existsb (fun c => String.eqb (key c) x) (map g l) =
  existsb (fun c => String.eqb (key c) x) l.
Proof.
  intros Hg. induction l as [|y ys IH]; simpl; [reflexivity|]. now rewrite Hg, IH.
Qed.

Lemma run_exists_after_createHealthCheck p now db x :
  run_exists db x = true -> run_exists (snd (createHealthCheck p now db)) x = true.
Proof.
  intros H. unfold createHealthCheck.
  destruct (run_exists db (c_healthCheckUuid p)); simpl; [exact H|].
  unfold run_exists in *; simpl. rewrite existsb_app, H. reflexivity.
Qed.

Lemma createWorkerHealthCheck_dangling p now db :
  run_exists db (cw_healthCheckUuid p) = false ->
  exists e, createWorkerHealthCheck p now db = (Rejected e, db) /\ err_name e = "Error".
Proof.
  intros H. unfold createWorkerHealthCheck. rewrite H. simpl.
  destruct (check_exists db _); eexists; split; reflexivity.
Qed.

Lemma reachable_results_reference_runs db :
  reachable db -> results_reference_runs db.
Proof.
  unfold results_reference_runs.
  induction 1 as [| db p now Hr IH | db p now Hr IH | db uuid u Hr IH | db uuid u Hr IH];
    intros w Hw.
  - destruct Hw.
  - apply run_exists_after_createHealthCheck, IH.
    unfold createHealthCheck in Hw.
    destruct (run_exists db (c_healthCheckUuid p)); exact Hw.
  - unfold createWorkerHealthCheck in *.
    destruct (check_exists db _); [now apply IH|].
    destruct (run_exists db (cw_healthCheckUuid p)) eqn:Ex; simpl in *; [|now apply IH].
    apply in_app_or in Hw as [Hw|[<-|[]]]; [now apply IH|exact Ex].
  - unfold updateHealthCheck in *.
    destruct (negb (hc_update_nonempty u)); simpl in *; [now apply IH|].
    unfold run_exists; simpl.
    rewrite existsb_map_same; [now apply IH|].
    intros c. destruct (String.eqb _ uuid); reflexivity.
  - unfold updateWorkerHealthCheck in *.
    destruct (negb (whc_update_nonempty u)); simpl in *; [now apply IH|].
    apply in_map_iff in Hw as (w0 & <- & Hw0).
    unfold run_exists in *; simpl.
    destruct (String.eqb _ uuid); simpl; now apply IH.
Qed.

Lemma reachable_timestamps db :
  reachable db ->
  (forall c, In c (healthChecks db) -> exists t, hc_startedAt c = Some t) /\
  (forall w, In w (workerHealthChecks db) -> exists t, whc_createdAt w = Some t).
Proof.
  induction 1 as [| db p now Hr [IH1 IH2] | db p now Hr [IH1 IH2]
                 | db uuid u Hr [IH1 IH2] | db uuid u Hr [IH1 IH2]].
  - split; intros ? [].
  - unfold createHealthCheck.
    destruct (run_exists db _); simpl; [now split|]. split; [|exact IH2].
    intros c Hc. apply in_app_or in Hc as [Hc|[<-|[]]]; [now apply IH1|eexists; reflexivity].
  - unfold createWorkerHealthCheck.
    destruct (check_exists db _); [now split|].
    destruct (run_exists db _); simpl; [|now split]. split; [exact IH1|].
    intros w Hw. apply in_app_or in Hw as [Hw|[<-|[]]]; [now apply IH2|eexists; reflexivity].
  - unfold updateHealthCheck.
    destruct (negb (hc_update_nonempty u)); simpl; [now split|]. split; [|exact IH2].
    intros c Hc. apply in_map_iff in Hc as (c0 & <- & Hc0).
    destruct (String.eqb _ uuid); simpl; now apply IH1.
  - unfold updateWorkerHealthCheck.
    destruct (negb (whc_update_nonempty u)); simpl; [now split|]. split; [exact IH1|].
    intros w Hw. apply in_map_iff in Hw as (w0 & <- & Hw0).
    destruct (String.eqb _ uuid); simpl; now apply IH2.
Qed.

(** C3 (as stated, refuted): with [limit = -1] the query has no upper
    bound, so the page of a store holding one run has one entry, more than
    the limit. *)
Lemma getHealthChecks_negative_limit :
  let db := snd (createHealthCheck (mkCreateHealthCheckParams "r1" "manual" None (Some 3%Z) None)
                   1000 emptyDB) in
  let resp := getHealthChecks db (mkGetHealthChecksParams None None (Some (-1)%Z) None) 2000 in
  limit (pagination resp) = (-1)%Z /\ length (data resp) = 1%nat /\
  ~ (Z.of_nat (length (data resp)) <= limit (pagination resp))%Z.
Proof.
  split; [reflexivity|split; [reflexivity|]].
  intros H. vm_compute in H. now apply H.
Qed.

(** C3 (amended): for both listings, [hasMore] is [offset + limit < total],
    [total] counts the rows of the page's own filter, the page is drawn from
    those rows, and for a non-negative limit the page has at most [limit]
    entries. *)
Theorem listing_pagination db params huuid wlim woff now :
  let r := getHealthChecks db params now in
  let w := getWorkerHealthChecks db huuid wlim woff now in
  (hasMore (pagination r) = (offset (pagination r) + limit (pagination r) <? total (pagination r))%Z /\
   total (pagination r) = Z.of_nat (length (filter (hc_conditions params) (healthChecks db))) /\
   (exists page, data r = map (hc_response now) page /\
                 incl page (filter (hc_conditions params) (healthChecks db))) /\
   ((0 <= limit (pagination r))%Z -> (Z.of_nat (length (data r)) <= limit (pagination r))%Z)) /\
  (hasMore (pagination w) = (offset (pagination w) + limit (pagination w) <? total (pagination w))%Z /\
   total (pagination w) = Z.of_nat (length (filter (of_run huuid) (workerHealthChecks db))) /\
   (exists page, data w = map (whc_response now) page /\
                 incl page (filter (of_run huuid) (workerHealthChecks db))) /\
   ((0 <= limit (pagination w))%Z -> (Z.of_nat (length (data w)) <= limit (pagination w))%Z)).
Proof.
  simpl. split; (split; [reflexivity|split; [reflexivity|split]]).
  - eexists; split; [reflexivity|].
    intros x Hx. apply limit_offset_incl in Hx.
    eapply Permutation_in; [symmetry; apply sort_by_perm|exact Hx].
  - intros H. rewrite length_map. now apply limit_offset_length.
  - eexists; split; [reflexivity|].
    intros x Hx. apply limit_offset_incl in Hx.
    eapply Permutation_in; [symmetry; apply sort_by_perm|exact Hx].
  - intros H. rewrite length_map. now apply limit_offset_length.
Qed.

(** C4 (as stated, refuted): creating a result for a run that does not
    exist is rejected by the store's foreign-key constraint, a plain
    [Error], not a NotFoundError. *)
Lemma createWorkerHealthCheck_missing_run_error :
  let p := mkCreateWorkerHealthCheckParams "w1" "r-missing" "api" "worker" None in
  run_exists emptyDB "r-missing" = false /\
  fst (createWorkerHealthCheck p 1000 emptyDB) = Rejected foreign_key_failed /\
  err_name foreign_key_failed <> "NotFoundError".
Proof.
  split; [reflexivity|split; [reflexivity|]]. discriminate.
Qed.

(** C4 (amended): the code checks nothing itself; an insert naming a
    nonexistent run is rejected by the store's foreign-key constraint with a
    plain Error (never a NotFoundError) and leaves the store unchanged, and in
    every reachable store state each result's run identifier names a run. *)
Theorem worker_results_reference_runs :
  (forall p now db, run_exists db (cw_healthCheckUuid p) = false ->
     exists e, createWorkerHealthCheck p now db = (Rejected e, db) /\
               err_name e <> "NotFoundError") /\
  (forall db, reachable db -> results_reference_runs db).
Proof.
  split.
  - intros p now db H. destruct (createWorkerHealthCheck_dangling p now db H) as (e & He & Hn).
    exists e. split; [exact He|]. rewrite Hn. discriminate.
  - exact reachable_results_reference_runs.
Qed.

(** C6: the point lookups resolve (never reject), and resolve to [null]
    exactly when no row carries the identifier. *)
Theorem point_lookups_null db uuid now :
  (getHealthCheck db uuid now = Resolved None <-> run_exists db uuid = false) /\
  (getWorkerHealthCheck db uuid now = Resolved None <-> check_exists db uuid = false) /\
  (exists o, getHealthCheck db uuid now = Resolved o) /\
  (exists o, getWorkerHealthCheck db uuid now = Resolved o).
Proof.
  unfold getHealthCheck, getWorkerHealthCheck, run_exists, check_exists.
  split; [|split; [|split]].
  - rewrite <- filter_nil_existsb, <- firstn_one_nil.
    destruct (firstn 1 _); split; congruence.
  - rewrite <- filter_nil_existsb, <- firstn_one_nil.
    destruct (firstn 1 _); split; congruence.
  - destruct (firstn 1 _); eexists; reflexivity.
  - destruct (firstn 1 _); eexists; reflexivity.
Qed.
(** C8: in every reachable store state, the run listing returns runs by
    descending start time and the result listing returns a run's results by
    descending creation time, for every filter and pagination choice. *)
Theorem listings_ordered_desc db params huuid wlim woff now :
  reachable db ->
  Sorted (fun a b => (r_startedAt b <= r_startedAt a)%Z)
    (data (getHealthChecks db params now)) /\
  Sorted (fun a b => (wr_createdAt b <= wr_createdAt a)%Z)
    (data (getWorkerHealthChecks db huuid wlim woff now)).
Proof.
  intros Hr. destruct (reachable_timestamps db Hr) as [Hs Hc]. simpl. split.
  - apply sorted_map with (R := fun a b => startedAt_desc a b = true).
    + intros a b Ha Hb Hab.
      apply limit_offset_incl in Ha, Hb.
      eapply Permutation_in in Ha; [|symmetry; apply sort_by_perm].
      eapply Permutation_in in Hb; [|symmetry; apply sort_by_perm].
      apply filter_In in Ha as [Ha _]. apply filter_In in Hb as [Hb _].
      destruct (Hs a Ha) as [ta Ea], (Hs b Hb) as [tb Eb].
      unfold startedAt_desc in Hab. unfold hc_response; simpl.
      rewrite Ea, Eb in *. simpl in *. now apply Z.leb_le.
    + apply limit_offset_sorted, sort_by_sorted, startedAt_desc_total.
  - apply sorted_map with (R := fun a b => createdAt_desc a b = true).
    + intros a b Ha Hb Hab.
      apply limit_offset_incl in Ha, Hb.
      eapply Permutation_in in Ha; [|symmetry; apply sort_by_perm].
      eapply Permutation_in in Hb; [|symmetry; apply sort_by_perm].
      apply filter_In in Ha as [Ha _]. apply filter_In in Hb as [Hb _].
      destruct (Hc a Ha) as [ta Ea], (Hc b Hb) as [tb Eb].
      unfold createdAt_desc in Hab. unfold whc_response; simpl.
      rewrite Ea, Eb in *. simpl in *. now apply Z.leb_le.
    + apply limit_offset_sorted, sort_by_sorted, createdAt_desc_total.
Qed.

Lemma listings_ordered_desc_witness :
  let db0 := snd (createHealthCheck (mkCreateHealthCheckParams "r1" "manual" None None None)
                    1000 emptyDB) in
  let db1 := snd (createHealthCheck (mkCreateHealthCheckParams "r2" "manual" None None None)
                    2000 db0) in
  let db2 := snd (createWorkerHealthCheck
                    (mkCreateWorkerHealthCheckParams "w1" "r1" "api" "worker" None) 1500 db1) in
  let db := snd (createWorkerHealthCheck
                   (mkCreateWorkerHealthCheckParams "w2" "r1" "web" "worker" None) 2500 db2) in
  reachable db /\
  map r_healthCheckUuid (data (getHealthChecks db (mkGetHealthChecksParams None None None None) 3000))
    = ["r2"; "r1"] /\
  map wr_workerCheckUuid (data (getWorkerHealthChecks db "r1" None None 3000)) = ["w2"; "w1"] /\
  Sorted (fun a b => (r_startedAt b <= r_startedAt a)%Z)
    (data (getHealthChecks db (mkGetHealthChecksParams None None None None) 3000)) /\
  Sorted (fun a b => (wr_createdAt b <= wr_createdAt a)%Z)
    (data (getWorkerHealthChecks db "r1" None None 3000)).
Proof.
  intros db0 db1 db2 db.
  assert (Hr : reachable db).
  { apply reach_createWorkerHealthCheck, reach_createWorkerHealthCheck,
      reach_createHealthCheck, reach_createHealthCheck, reach_empty. }
  split; [exact Hr|].
  split; [vm_compute; reflexivity|].
  split; [vm_compute; reflexivity|].
  exact (listings_ordered_desc db (mkGetHealthChecksParams None None None None) "r1"
           None None 3000 Hr).
Defined.

(** C9 (as stated, refuted): a freshly created run is reported running
    with score 0, a running run whose score was updated is reported running
    with that score, and a freshly created result is reported pending with
    score 0. *)
Lemma lookup_running_run_has_score :
  let db1 := snd (createHealthCheck (mkCreateHealthCheckParams "r1" "manual" None (Some 2%Z) None)
                    1000 emptyDB) in
  let db2 := snd (updateHealthCheck "r1"
                    (mkHealthCheckUpdate None None None None (Some (3 # 4)%Q) None None None) db1) in
  let db3 := snd (createWorkerHealthCheck
                    (mkCreateWorkerHealthCheckParams "w1" "r1" "api" "worker" None) 1500 db1) in
  (exists r, getHealthCheck db1 "r1" 2000 = Resolved (Some r) /\
             r_status r = "running" /\ r_overallHealthScore r = 0%Q) /\
  (exists r, getHealthCheck db2 "r1" 2000 = Resolved (Some r) /\
             r_status r = "running" /\ r_overallHealthScore r = (3 # 4)%Q) /\
  (exists w, getWorkerHealthCheck db3 "w1" 2000 = Resolved (Some w) /\
             wr_status w = "pending" /\ wr_healthScore w = 0%Q).
Proof.
  split; [|split]; (eexists; split; [reflexivity|split; reflexivity]).
Qed.

(** C9 (amended): a lookup always surfaces a numeric score, whatever the
    status: the stored score, or 0 when none is stored (status defaults to
    'running' for runs and 'pending' for results). *)
Theorem lookup_score_coalesced db uuid wuuid now :
  (match getHealthCheck db uuid now with
   | Resolved (Some r) =>
       exists c, In c (healthChecks db) /\ hc_healthCheckUuid c = uuid /\
                 r_status r = coalesce (hc_status c) "running" /\
                 r_overallHealthScore r = coalesce (hc_overallHealthScore c) 0%Q
   | _ => True
   end) /\
  (match getWorkerHealthCheck db wuuid now with
   | Resolved (Some w) =>
       exists c, In c (workerHealthChecks db) /\ whc_workerCheckUuid c = wuuid /\
                 wr_status w = coalesce (whc_status c) "pending" /\
                 wr_healthScore w = coalesce (whc_healthScore c) 0%Q
   | _ => True
   end).
Proof.
  unfold getHealthCheck, getWorkerHealthCheck. split.
  - destruct (filter _ (healthChecks db)) as [|c cs] eqn:E; simpl; [exact I|].
    assert (Hc : In c (filter (fun c => String.eqb (hc_healthCheckUuid c) uuid)
                          (healthChecks db))) by (rewrite E; now left).
    apply filter_In in Hc as [Hc Hu]. apply String.eqb_eq in Hu.
    exists c. repeat split; assumption.
  - destruct (filter _ (workerHealthChecks db)) as [|c cs] eqn:E; simpl; [exact I|].
    assert (Hc : In c (filter (fun c => String.eqb (whc_workerCheckUuid c) wuuid)
                          (workerHealthChecks db))) by (rewrite E; now left).
    apply filter_In in Hc as [Hc Hu]. apply String.eqb_eq in Hu.
    exists c. repeat split; assumption.
Qed.

(** C10 (as stated, refuted): an update naming no field is rejected by the
    query builder ('No values to set') instead of returning [{ok: true}],
    also for identifiers matching no row. *)
Lemma update_without_fields_rejected :
  fst (updateHealthCheck "r-missing" (mkHealthCheckUpdate None None None None None None None None)
         emptyDB) = Rejected no_values_to_set /\
  fst (updateWorkerHealthCheck "w-missing" (mkWorkerHealthCheckUpdate None None None None)
         emptyDB) = Rejected no_values_to_set.
Proof. split; reflexivity. Qed.

(** C10 (amended): for every identifier, including one matching no row, an
    update setting at least one field returns [{ok: true}]; an update whose
    identifier matches no row leaves the store unchanged. *)
Theorem updates_ok_and_unmatched_noop db uuid u wuuid wu :
  (hc_update_nonempty u = true ->
     fst (updateHealthCheck uuid u db) = Resolved (mkOkResponse true)) /\
  (run_exists db uuid = false -> snd (updateHealthCheck uuid u db) = db) /\
  (whc_update_nonempty wu = true ->
     fst (updateWorkerHealthCheck wuuid wu db) = Resolved (mkOkResponse true)) /\
  (check_exists db wuuid = false -> snd (updateWorkerHealthCheck wuuid wu db) = db).
Proof.
  unfold updateHealthCheck, updateWorkerHealthCheck, run_exists, check_exists.
  split; [|split; [|split]].
  - intros H. now rewrite H.
  - intros H. destruct (negb (hc_update_nonempty u)); [reflexivity|]. simpl.
    rewrite map_unmatched by exact H. now destruct db.
  - intros H. now rewrite H.
  - intros H. destruct (negb (whc_update_nonempty wu)); [reflexivity|]. simpl.
    rewrite map_unmatched by exact H. now destruct db.
Qed.

End HealthProofs.

(** ** HealthOps: round trips, frames and pagination *)

Module HealthExtra.
Import Health.

Lemma filter_map_update {A} (p : A -> bool) (f : A -> A) l :
  (forall c, p (f c) = p c) ->
  filter p (map (fun c => if p c then f c else c) l) = map f (filter p l).
Proof.
  intros Hf. induction l as [|x xs IH]; simpl; [reflexivity|].
  destruct (p x) eqn:E; simpl.
  - rewrite Hf, E. now f_equal.
  - rewrite E. exact IH.
Qed.

Lemma filter_map_update_neg {A} (p : A -> bool) (f : A -> A) l :
  (forall c, p (f c) = p c) ->
  filter (fun c => negb (p c)) (map (fun c => if p c then f c else c) l) =
  filter (fun c => negb (p c)) l.
Proof.
  intros Hf. induction l as [|x xs IH]; simpl; [reflexivity|].
  destruct (p x) eqn:E; simpl; [|rewrite E; simpl; now f_equal].
  rewrite Hf, E. simpl. exact IH.
Qed.

(** A run created under a fresh identifier is found by [getHealthCheck]:
    status 'running', total as given (0 by default), zero counts and score,
    started and created at the insertion time, under the returned id. *)
Theorem createHealthCheck_then_get p now now' db :
  run_exists db (c_healthCheckUuid p) = false ->
  exists i,
    fst (createHealthCheck p now db) = Resolved (mkIdResponse i) /\
    getHealthCheck (snd (createHealthCheck p now db)) (c_healthCheckUuid p) now' =
      Resolved (Some (mkHealthCheckResponse i (c_healthCheckUuid p) (c_triggerType p)
                        (c_triggerSource p) "running" (coalesce (c_totalWorkers p) 0%Z)
                        0 0 0 0%Q None None now None (c_timeoutAt p) now)).
Proof.
  intros H. unfold createHealthCheck. rewrite H. simpl.
  eexists. split; [reflexivity|].
  unfold getHealthCheck; simpl. rewrite filter_app.
  unfold run_exists in H. apply HealthProofs.filter_nil_existsb in H. rewrite H.
  simpl. rewrite String.eqb_refl. reflexivity.
Qed.

Lemma createHealthCheck_then_get_witness :
  run_exists emptyDB "r1" = false /\
  exists i,
    fst (createHealthCheck (mkCreateHealthCheckParams "r1" "manual" None None None) 10 emptyDB)
      = Resolved (mkIdResponse i) /\
    getHealthCheck (snd (createHealthCheck (mkCreateHealthCheckParams "r1" "manual" None None None)
                           10 emptyDB)) "r1" 20 =
      Resolved (Some (mkHealthCheckResponse i "r1" "manual" None "running" 0 0 0 0 0%Q
                        None None 10 None None 10)).
Proof.
  split; [reflexivity|].
  exact (createHealthCheck_then_get (mkCreateHealthCheckParams "r1" "manual" None None None)
           10 20 emptyDB eq_refl).
Defined.

(** A result created under a fresh identifier for a stored run (whatever
    that run's status) is found by [getWorkerHealthCheck] as 'pending' with
    score 0, and the run's result listing counts one more result. *)
Theorem createWorkerHealthCheck_then_get p now now' db lim off :
  check_exists db (cw_workerCheckUuid p) = false ->
  run_exists db (cw_healthCheckUuid p) = true ->
  exists i,
    fst (createWorkerHealthCheck p now db) = Resolved (mkIdResponse i) /\
    getWorkerHealthCheck (snd (createWorkerHealthCheck p now db)) (cw_workerCheckUuid p) now' =
      Resolved (Some (mkWorkerHealthCheckResponse i (cw_workerCheckUuid p) (cw_healthCheckUuid p)
                        (cw_workerName p) (cw_workerType p) (cw_workerUrl p)
                        "pending" None 0%Q now None)) /\
    total (pagination (getWorkerHealthChecks (snd (createWorkerHealthCheck p now db))
                         (cw_healthCheckUuid p) lim off now')) =
      (total (pagination (getWorkerHealthChecks db (cw_healthCheckUuid p) lim off now')) + 1)%Z.
Proof.
  intros Hc Hr. unfold createWorkerHealthCheck. rewrite Hc, Hr. simpl.
  eexists. split; [reflexivity|split].
  - unfold getWorkerHealthCheck; simpl. rewrite filter_app.
    unfold check_exists in Hc. apply HealthProofs.filter_nil_existsb in Hc. rewrite Hc.
    simpl. rewrite String.eqb_refl. reflexivity.
  - unfold getWorkerHealthChecks; simpl. rewrite filter_app, length_app. simpl.
    unfold of_run at 2. simpl. rewrite String.eqb_refl. simpl. lia.
Qed.

Lemma createWorkerHealthCheck_then_get_witness :
  let db := snd (createHealthCheck (mkCreateHealthCheckParams "r1" "manual" None None None)
                   10 emptyDB) in
  let p := mkCreateWorkerHealthCheckParams "w1" "r1" "api" "worker" None in
  check_exists db "w1" = false /\ run_exists db "r1" = true /\
  exists i,
    fst (createWorkerHealthCheck p 15 db) = Resolved (mkIdResponse i) /\
    getWorkerHealthCheck (snd (createWorkerHealthCheck p 15 db)) "w1" 20 =
      Resolved (Some (mkWorkerHealthCheckResponse i "w1" "r1" "api" "worker" None
                        "pending" None 0%Q 15 None)) /\
    total (pagination (getWorkerHealthChecks (snd (createWorkerHealthCheck p 15 db))
                         "r1" None None 20)) =
      (total (pagination (getWorkerHealthChecks db "r1" None None 20)) + 1)%Z.
Proof.
  intros db p. split; [reflexivity|split; [reflexivity|]].
  exact (createWorkerHealthCheck_then_get p 15 20 db None None eq_refl eq_refl).
Defined.

(** After a non-empty update, [getHealthCheck] on the same identifier
    returns the previously found row with the set fields replaced, whatever
    the results table holds; likewise for a result, whatever its status. *)
Theorem update_then_get db uuid u wuuid wu now :
  (forall c rest,
   hc_update_nonempty u = true ->
   filter (fun c => String.eqb (hc_healthCheckUuid c) uuid) (healthChecks db) = c :: rest ->
   getHealthCheck (snd (updateHealthCheck uuid u db)) uuid now =
     Resolved (Some (hc_response now (apply_hc_update u c)))) /\
  (forall w wrest,
   whc_update_nonempty wu = true ->
   filter (fun c => String.eqb (whc_workerCheckUuid c) wuuid) (workerHealthChecks db) = w :: wrest ->
   getWorkerHealthCheck (snd (updateWorkerHealthCheck wuuid wu db)) wuuid now =
     Resolved (Some (whc_response now (apply_whc_update wu w)))).
Proof.
  split.
  - intros c rest Hu Hc.
    unfold updateHealthCheck. rewrite Hu. simpl. unfold getHealthCheck; simpl.
    rewrite (filter_map_update (fun c => String.eqb (hc_healthCheckUuid c) uuid)
               (apply_hc_update u)) by reflexivity.
    now rewrite Hc.
  - intros w wrest Hwu Hw.
    unfold updateWorkerHealthCheck. rewrite Hwu. simpl. unfold getWorkerHealthCheck; simpl.
    rewrite (filter_map_update (fun c => String.eqb (whc_workerCheckUuid c) wuuid)
               (apply_whc_update wu)) by reflexivity.
    now rewrite Hw.
Qed.

Lemma update_then_get_witness :
  let db_run := snd (createHealthCheck (mkCreateHealthCheckParams "r1" "manual" None None None)
                       10 emptyDB) in
  let db := snd (createWorkerHealthCheck (mkCreateWorkerHealthCheckParams "w1" "r1" "api" "worker" None)
                   15 db_run) in
  let u := mkHealthCheckUpdate (Some "completed") None None None (Some 1%Q) None None (Some 30%Z) in
  let wu := mkWorkerHealthCheckUpdate (Some "completed") None (Some 1%Q) (Some 25%Z) in
  workerHealthChecks db_run = [] /\
  hc_update_nonempty u = true /\
  (exists c rest,
     filter (fun c => String.eqb (hc_healthCheckUuid c) "r1") (healthChecks db_run) = c :: rest /\
     getHealthCheck (snd (updateHealthCheck "r1" u db_run)) "r1" 40 =
       Resolved (Some (hc_response 40 (apply_hc_update u c)))) /\
  whc_update_nonempty wu = true /\
  (exists w wrest,
     filter (fun c => String.eqb (whc_workerCheckUuid c) "w1") (workerHealthChecks db) = w :: wrest /\
     getWorkerHealthCheck (snd (updateWorkerHealthCheck "w1" wu db)) "w1" 40 =
       Resolved (Some (whc_response 40 (apply_whc_update wu w)))).
Proof.
  intros db_run db u wu.
  split; [reflexivity|]. split; [reflexivity|].
  split.
  { do 2 eexists. split; [reflexivity|].
    exact (proj1 (update_then_get db_run "r1" u "w1" wu 40) _ [] eq_refl eq_refl). }
  split; [reflexivity|].
  do 2 eexists. split; [reflexivity|].
  exact (proj2 (update_then_get db "r1" u "w1" wu 40) _ [] eq_refl eq_refl).
Defined.

(** [updateHealthCheck] never touches the results table, never changes the
    columns it has no parameter for (id, identifier, trigger, total, start,
    timeout and creation times), and leaves every row with another
    identifier as it was; likewise [updateWorkerHealthCheck] for results. *)
Theorem updates_frame db uuid u wuuid wu :
  let db1 := snd (updateHealthCheck uuid u db) in
  let db2 := snd (updateWorkerHealthCheck wuuid wu db) in
  workerHealthChecks db1 = workerHealthChecks db /\
  map hc_fixed (healthChecks db1) = map hc_fixed (healthChecks db) /\
  filter (fun c => negb (String.eqb (hc_healthCheckUuid c) uuid)) (healthChecks db1) =
    filter (fun c => negb (String.eqb (hc_healthCheckUuid c) uuid)) (healthChecks db) /\
  healthChecks db2 = healthChecks db /\
  map whc_fixed (workerHealthChecks db2) = map whc_fixed (workerHealthChecks db) /\
  filter (fun c => negb (String.eqb (whc_workerCheckUuid c) wuuid)) (workerHealthChecks db2) =
    filter (fun c => negb (String.eqb (whc_workerCheckUuid c) wuuid)) (workerHealthChecks db).
Proof.
  unfold updateHealthCheck, updateWorkerHealthCheck.
  destruct (negb (hc_update_nonempty u)), (negb (whc_update_nonempty wu)); simpl;
    repeat split; try reflexivity;
    first
      [ rewrite map_map; apply map_ext; intros c; destruct (String.eqb _ _); reflexivity
      | apply (filter_map_update_neg (fun c => String.eqb (hc_healthCheckUuid c) uuid)
                 (apply_hc_update u)); reflexivity
      | apply (filter_map_update_neg (fun c => String.eqb (whc_workerCheckUuid c) wuuid)
                 (apply_whc_update wu)); reflexivity ].
Qed.

(** Listings return only matching rows: every result listed for a run
    belongs to it, and with a non-empty trigger-type or status filter every
    listed run carries that trigger type or status. *)
Theorem listings_match_filters db params huuid lim off now :
  (forall r, In r (data (getWorkerHealthChecks db huuid lim off now)) ->
     wr_healthCheckUuid r = huuid) /\
  (forall t, truthy (p_triggerType params) = Some t ->
     forall r, In r (data (getHealthChecks db params now)) -> r_triggerType r = t) /\
  (forall s, truthy (p_status params) = Some s ->
     forall r, In r (data (getHealthChecks db params now)) -> r_status r = s).
Proof.
  split; [|split].
  - intros r Hr. simpl in Hr. apply in_map_iff in Hr as (c & <- & Hc).
    apply limit_offset_incl in Hc.
    eapply Permutation_in in Hc; [|symmetry; apply sort_by_perm].
    apply filter_In in Hc as [_ Hc]. now apply String.eqb_eq in Hc.
  - intros t Ht r Hr. simpl in Hr. apply in_map_iff in Hr as (c & <- & Hc).
    apply limit_offset_incl in Hc.
    eapply Permutation_in in Hc; [|symmetry; apply sort_by_perm].
    apply filter_In in Hc as [_ Hc]. unfold hc_conditions in Hc. rewrite Ht in Hc.
    apply andb_true_iff in Hc as [Hc _]. now apply String.eqb_eq in Hc.
  - intros s Hs r Hr. simpl in Hr. apply in_map_iff in Hr as (c & <- & Hc).
    apply limit_offset_incl in Hc.
    eapply Permutation_in in Hc; [|symmetry; apply sort_by_perm].
    apply filter_In in Hc as [_ Hc]. unfold hc_conditions in Hc. rewrite Hs in Hc.
    apply andb_true_iff in Hc as [_ Hc]. simpl.
    destruct (hc_status c) as [s'|]; [|discriminate].
    apply String.eqb_eq in Hc. now subst.
Qed.

(** An empty-string trigger-type or status filter is no filter at all
    (JavaScript truthiness of [params.triggerType] and [params.status]). *)
Theorem empty_filter_strings_ignored db tt st lim off now :
  getHealthChecks db (mkGetHealthChecksParams (Some "") st lim off) now =
    getHealthChecks db (mkGetHealthChecksParams None st lim off) now /\
  getHealthChecks db (mkGetHealthChecksParams tt (Some "") lim off) now =
    getHealthChecks db (mkGetHealthChecksParams tt None lim off) now.
Proof. split; reflexivity. Qed.

Lemma limit_offset_length_exact {A} lim off (l : list A) :
  (0 <= lim)%Z -> (0 <= off)%Z ->
  length (limit_offset lim off l) = Nat.min (Z.to_nat lim) (length l - Z.to_nat off).
Proof.
  intros Hl Ho. unfold limit_offset.
  replace (lim <? 0)%Z with false by (symmetry; apply Z.ltb_ge; lia).
  now rewrite length_firstn, length_skipn.
Qed.

Lemma page_size {A} lim off (l : list A) :
  (0 <= lim)%Z -> (0 <= off)%Z ->
  ((off + lim <? Z.of_nat (length l))%Z = true ->
     Z.of_nat (length (limit_offset lim off l)) = lim) /\
  ((off + lim <? Z.of_nat (length l))%Z = false ->
     Z.of_nat (length (limit_offset lim off l)) = Z.max 0 (Z.of_nat (length l) - off)).
Proof.
  intros Hl Ho. rewrite limit_offset_length_exact by assumption.
  split; intros H; [apply Z.ltb_lt in H|apply Z.ltb_ge in H].
  - rewrite Nat.min_l by lia. lia.
  - rewrite Nat.min_r by lia. lia.
Qed.

(** For a non-negative limit and offset, a page flagged [hasMore] is full
    ([limit] entries), and a page not flagged [hasMore] holds every matching
    row from the offset on ([total - offset] entries, or none). *)
Theorem page_fullness db params huuid wlim woff now :
  let r := getHealthChecks db params now in
  let w := getWorkerHealthChecks db huuid wlim woff now in
  ((0 <= limit (pagination r))%Z -> (0 <= offset (pagination r))%Z ->
   (hasMore (pagination r) = true -> Z.of_nat (length (data r)) = limit (pagination r)) /\
   (hasMore (pagination r) = false ->
      Z.of_nat (length (data r)) = Z.max 0 (total (pagination r) - offset (pagination r)))) /\
  ((0 <= limit (pagination w))%Z -> (0 <= offset (pagination w))%Z ->
   (hasMore (pagination w) = true -> Z.of_nat (length (data w)) = limit (pagination w)) /\
   (hasMore (pagination w) = false ->
      Z.of_nat (length (data w)) = Z.max 0 (total (pagination w) - offset (pagination w)))).
Proof.
  simpl. split; intros Hl Ho; rewrite length_map.
  - pose proof (page_size (coalesce (p_limit params) 50%Z) (coalesce (p_offset params) 0%Z)
                  (sort_by startedAt_desc (filter (hc_conditions params) (healthChecks db))) Hl Ho)
      as [H1 H2].
    rewrite <- (Permutation_length (sort_by_perm startedAt_desc _)) in H1, H2.
    split; assumption.
  - pose proof (page_size (coalesce wlim 100%Z) (coalesce woff 0%Z)
                  (sort_by createdAt_desc (filter (of_run huuid) (workerHealthChecks db))) Hl Ho)
      as [H1 H2].
    rewrite <- (Permutation_length (sort_by_perm createdAt_desc _)) in H1, H2.
    split; assumption.
Qed.

(** No write operation deletes anything: every run and result identifier
    stored before a create or update is still stored after it, and neither
    table shrinks. *)
Theorem health_step_never_deletes db db' :
  health_step db db' ->
  (forall x, run_exists db x = true -> run_exists db' x = true) /\
  (forall x, check_exists db x = true -> check_exists db' x = true) /\
  (length (healthChecks db) <= length (healthChecks db'))%nat /\
  (length (workerHealthChecks db) <= length (workerHealthChecks db'))%nat.
Proof.
  destruct 1 as [db p now | db p now | db uuid u | db uuid u].
  - split; [intros x; apply HealthProofs.run_exists_after_createHealthCheck|].
    unfold createHealthCheck, check_exists.
    destruct (run_exists db _); simpl; [auto|].
    rewrite length_app. simpl. repeat split; auto; lia.
  - unfold createWorkerHealthCheck.
    destruct (check_exists db (cw_workerCheckUuid p)); [simpl; auto|].
    destruct (negb (run_exists db (cw_healthCheckUuid p))); simpl; [auto|].
    unfold run_exists, check_exists; simpl.
    rewrite length_app. split; [auto|split; [|simpl; lia]].
    intros x H. now rewrite existsb_app, H.
  - unfold updateHealthCheck, run_exists, check_exists.
    destruct (negb (hc_update_nonempty u)); simpl; [auto|].
    rewrite length_map. repeat split; auto.
    intros x H. rewrite HealthProofs.existsb_map_same; [exact H|].
    intros c. destruct (String.eqb _ uuid); reflexivity.
  - unfold updateWorkerHealthCheck, run_exists, check_exists.
    destruct (negb (whc_update_nonempty u)); simpl; [auto|].
    rewrite length_map. repeat split; auto.
    intros x H. rewrite HealthProofs.existsb_map_same; [exact H|].
    intros c. destruct (String.eqb _ uuid); reflexivity.
Qed.

Lemma health_step_never_deletes_witness :
  let db := snd (createWorkerHealthCheck (mkCreateWorkerHealthCheckParams "w1" "r1" "api" "worker" None)
                   15 (snd (createHealthCheck (mkCreateHealthCheckParams "r1" "manual" None None None)
                              10 emptyDB))) in
  let db' := snd (updateHealthCheck "r1"
                    (mkHealthCheckUpdate (Some "completed") None None None None None None (Some 30%Z))
                    db) in
  health_step db db' /\
  run_exists db "r1" = true /\ run_exists db' "r1" = true /\
  check_exists db "w1" = true /\ check_exists db' "w1" = true /\
  length (healthChecks db) = 1%nat /\ length (healthChecks db') = 1%nat /\
  length (workerHealthChecks db) = 1%nat /\ length (workerHealthChecks db') = 1%nat.
Proof.
  intros db db'. assert (H : health_step db db') by apply step_updateHealthCheck.
  destruct (health_step_never_deletes db db' H) as [Hrun [Hcheck _]].
  assert (Hr : run_exists db "r1" = true) by reflexivity.
  assert (Hc : check_exists db "w1" = true) by reflexivity.
  split; [exact H|]. split; [exact Hr|]. split; [exact (Hrun _ Hr)|].
  split; [exact Hc|]. split; [exact (Hcheck _ Hc)|].
  repeat split; reflexivity.
Defined.

End HealthExtra.

(** ** OpsSpecialist: edge cases and order isolation *)

Module OpsExtra.
Import Ops.


Lemma filter_none {A} (p : A -> bool) l :
  Forall (fun x => p x = false) l -> filter p l = [].
Proof. induction 1 as [|x xs Hx _ IH]; simpl; [reflexivity|now rewrite Hx]. Qed.

(** With no conflicting file, [resolveConflict] still dispatches exactly
    one issue: its file path is 'unknown' and its message names no file. *)
Theorem resolveConflict_no_files env repo branch log :
  exists c,
    snd (resolveConflict env repo branch [] log) = (log ++ [c])%list /\
    call_context c =
      mkIssueContext None "unknown" "merge_conflict"
        ("Conflict detected in " ++ repo ++ ":" ++ branch ++ " → ").
Proof.
  unfold resolveConflict, createIssue.
  destruct (tracker_accepts env _); eexists; split; reflexivity.
Qed.

(** Followups and operation-log entries of other orders, wherever they sit
    in the tables, change neither the delivery report of an order nor the
    outcome, the issue log and the verdict of its final QA. *)
Theorem order_isolation orderId l1 extra l2 o1 oextra o2 now tracker log :
  Forall (fun f => fu_order_id f <> orderId) extra ->
  Forall (fun o => op_order_id o <> orderId) oextra ->
  let env1 := mkEnv (l1 ++ l2) (o1 ++ o2) now tracker in
  let env2 := mkEnv (l1 ++ extra ++ l2) (o1 ++ oextra ++ o2) now tracker in
  generateDeliveryReport env2 orderId log = generateDeliveryReport env1 orderId log /\
  finalQA env2 orderId log = finalQA env1 orderId log.
Proof.
  intros Hf Ho env1 env2.
  assert (Ef : select_followups env2 orderId = select_followups env1 orderId).
  { unfold select_followups; simpl. rewrite !filter_app.
    rewrite (filter_none _ extra); [reflexivity|].
    eapply Forall_impl; [|exact Hf]. intros f H. now apply String.eqb_neq. }
  assert (Eo : select_operation_logs env2 orderId = select_operation_logs env1 orderId).
  { unfold select_operation_logs; simpl. rewrite !filter_app.
    rewrite (filter_none _ oextra); [reflexivity|].
    eapply Forall_impl; [|exact Ho]. intros o H. now apply String.eqb_neq. }
  assert (Eg : generateDeliveryReport env2 orderId log = generateDeliveryReport env1 orderId log).
  { unfold generateDeliveryReport. rewrite Ef, Eo. reflexivity. }
  split; [exact Eg|].
  unfold finalQA, bind at 1. rewrite Eg.
  unfold generateDeliveryReport, ret. reflexivity.
Qed.

Lemma order_isolation_witness :
  let blocked_other := mkFollowup 2 "o2" "blocked" 1 (Some "b.ts") "other order" in
  Forall (fun f => fu_order_id f <> "o1") [blocked_other] /\
  Forall (fun o => op_order_id o <> "o1") [mkOperationLog 7 "o2" "deploy"] /\
  finalQA (mkEnv ([] ++ [blocked_other] ++ []) ([] ++ [mkOperationLog 7 "o2" "deploy"] ++ [])
             "2026-01-01T00:00:00.000Z" (fun _ => true)) "o1" [] =
  finalQA (mkEnv ([] ++ []) ([] ++ []) "2026-01-01T00:00:00.000Z" (fun _ => true)) "o1" [].
Proof.
  intros blocked_other.
  assert (Hf : Forall (fun f => fu_order_id f <> "o1") [blocked_other])
    by (constructor; [discriminate|constructor]).
  assert (Ho : Forall (fun o => op_order_id o <> "o1") [mkOperationLog 7 "o2" "deploy"])
    by (constructor; [discriminate|constructor]).
  split; [exact Hf|split; [exact Ho|]].
  exact (proj2 (order_isolation "o1" [] [blocked_other] [] [] [mkOperationLog 7 "o2" "deploy"] []
                  "2026-01-01T00:00:00.000Z" (fun _ => true) [] Hf Ho)).
Defined.

End OpsExtra.

(** ** UIFactoryAgent *)

Module UiFactoryProofs.
Import UiFactory.

Lemma zod_status_values v s :
  zod_status v = Some s -> s = "complete" \/ s = "error".
Proof.
  destruct v; try discriminate; simpl.
  destruct (String.eqb _ "complete") eqn:E1; [intros H; injection H as <-; left; now apply String.eqb_eq|].
  destruct (String.eqb _ "error") eqn:E2; [intros H; injection H as <-; right; now apply String.eqb_eq|].
  discriminate.
Qed.

Lemma UIResultSchema_parse_status v r :
  UIResultSchema_parse v = Some r -> status r = "complete" \/ status r = "error".
Proof.
  destruct v as [| | | | |? |fs]; try discriminate; simpl.
  destruct (zod_status (get fs "status")) as [s|] eqn:Es; [|discriminate].
  destruct (zod_string _); [|discriminate].
  destruct (zod_optional _ _); [|discriminate].
  destruct (zod_optional _ _); [|discriminate].
  intros H; injection H as <-; simpl.
  exact (zod_status_values _ _ Es).
Qed.

(** [processTask] always resolves to a [UIResult] whose status is
    'complete' or 'error'. Either it is the schema-validated payload of the
    AI binding, called once with the configured model (or the fallback
    model), the generation prompt, temperature 0.2 and 1200 output tokens;
    or it is an error result: status 'error', empty code, no components and
    an error message. *)
Theorem processTask_result_shape JSON_parse zod_error_message env input :
  let r := processTask JSON_parse zod_error_message env input in
  (status r = "complete" \/ status r = "error") /\
  ((exists ai aiResult structured,
       AI env = Some ai /\
       ai (Health.coalesce (DEFAULT_MODEL env) FALLBACK_MODEL)
          (mkAiRunInput (buildGenerationPrompt input) (1 # 5) 1200) = Ok aiResult /\
       parseAiStructuredResponse JSON_parse aiResult = Ok structured /\
       UIResultSchema_parse structured = Some r) \/
   (status r = "error" /\ result r = "" /\ components r = None /\ error r <> None)).
Proof.
  intros r. unfold r, processTask.
  destruct (AI env) as [ai|] eqn:Eai.
  2: { split; [right; reflexivity|right; repeat split; discriminate]. }
  destruct (ai _ _) as [aiResult|t] eqn:Ecall.
  2: { split; [right; reflexivity|right; repeat split; discriminate]. }
  destruct (parseAiStructuredResponse JSON_parse aiResult) as [structured|t] eqn:Eparse.
  2: { split; [right; reflexivity|right; repeat split; discriminate]. }
  destruct (UIResultSchema_parse structured) as [validated|] eqn:Eschema.
  2: { split; [right; reflexivity|right; repeat split; discriminate]. }
  split.
  - exact (UIResultSchema_parse_status _ _ Eschema).
  - left. exists ai, aiResult, structured. auto.
Qed.

(** Where the JSON text of a payload is found: the payload itself, its
    string [response], or the string [response] of the first element of its
    [results] array when it has no string [response] of its own. *)
Definition payload_text_at (v : JSValue) (s : string) : Prop :=
  v = JString s \/
  (exists fs, v = JObject fs /\ get fs "response" = JString s) \/
  (exists fs ffs rest, v = JObject fs /\ (forall r, get fs "response" <> JString r) /\
     get fs "results" = JArray (JObject ffs :: rest) /\ get ffs "response" = JString s).

(** A payload with no JSON text at any of those places. *)
Definition payload_text_missing (v : JSValue) : Prop :=
  (forall s, v <> JString s) /\
  (forall fs, v = JObject fs ->
     (forall r, get fs "response" <> JString r) /\
     (forall ffs rest r, get fs "results" = JArray (JObject ffs :: rest) ->
        get ffs "response" <> JString r)).

Lemma parse_payload_text JSON_parse v s :
  payload_text_at v s -> parseAiStructuredResponse JSON_parse v = safeJsonParse JSON_parse s.
Proof.
  intros [->|[[fs [-> Hr]]|[fs [ffs [rest [-> [Hnr [Hres Hf]]]]]]]]; simpl.
  - reflexivity.
  - now rewrite Hr.
  - destruct (get fs "response") eqn:E;
      try (rewrite Hres, Hf; reflexivity).
    exfalso; eapply Hnr; reflexivity.
Qed.

Lemma parse_payload_missing JSON_parse v :
  payload_text_missing v -> parseAiStructuredResponse JSON_parse v = no_payload.
Proof.
  intros [Hs Ho]. destruct v as [| | | |s| |fs]; try reflexivity.
  - exfalso; eapply Hs; reflexivity.
  - destruct (Ho fs eq_refl) as [Hnr Hres]. simpl.
    assert (Hinner : match get fs "results" with
                     | JArray (JObject first :: _) =>
                         match get first "response" with
                         | JString r => safeJsonParse JSON_parse r
                         | _ => no_payload
                         end
                     | _ => no_payload
                     end = no_payload).
    { destruct (get fs "results") as [| | | | |xs|]; try reflexivity.
      destruct xs as [|first rest]; try reflexivity.
      destruct first as [| | | | | |ffs]; try reflexivity.
      destruct (get ffs "response") eqn:F; try reflexivity.
      exfalso; eapply Hres; [reflexivity|exact F]. }
    destruct (get fs "response") eqn:E; try exact Hinner.
    exfalso; eapply Hnr; reflexivity.
Qed.

Lemma parse_throws_messages JSON_parse v t :
  parseAiStructuredResponse JSON_parse v = Throw t ->
  t = ThrownError "Failed to parse AI response as JSON" \/
  t = ThrownError "AI response did not include a parsable JSON payload".
Proof.
  assert (Hsafe : forall s, safeJsonParse JSON_parse s = Throw t ->
            t = ThrownError "Failed to parse AI response as JSON").
  { intros s. unfold safeJsonParse. destruct (JSON_parse s); [discriminate|].
    intros H; injection H as <-; reflexivity. }
  assert (Hno : (no_payload : Outcome JSValue) = Throw t ->
            t = ThrownError "AI response did not include a parsable JSON payload").
  { unfold no_payload. intros H; injection H as <-; reflexivity. }
  destruct v as [| | | |s| |fs]; simpl; try (intros H; right; exact (Hno H)).
  - intros H; left; exact (Hsafe _ H).
  - destruct (get fs "response");
      try (intros H; left; exact (Hsafe _ H));
      destruct (get fs "results") as [| | | | |xs|]; try (intros H; right; exact (Hno H));
      destruct xs as [|first rest]; try (intros H; right; exact (Hno H));
      destruct first as [| | | | | |ffs]; try (intros H; right; exact (Hno H));
      destruct (get ffs "response"); try (intros H; right; exact (Hno H));
      intros H; left; exact (Hsafe _ H).
Qed.

(** Each failure of [processTask] is reported by its own message: a missing
    AI binding; an [Error] thrown by the binding (its message); any other
    thrown value ('Unknown error occurred'); JSON text that does not parse,
    wherever the payload carries it (the payload string, its [response], or
    the first [results] element's [response]); a payload that carries no
    JSON text at any of those places; a payload that the result schema
    rejects (the zod message after a fixed prefix). A payload that fails to
    parse only ever yields one of the two parsing messages. *)
Theorem processTask_error_messages JSON_parse zod_error_message ai default_model input :
  let run := processTask JSON_parse zod_error_message in
  let env := mkUIFactoryEnv (Some ai) default_model in
  let call := ai (Health.coalesce default_model FALLBACK_MODEL)
                 (mkAiRunInput (buildGenerationPrompt input) (1 # 5) 1200) in
  run (mkUIFactoryEnv None default_model) input =
    mkUIResult "error" "" None (Some "AI binding is not available for UIFactoryAgent") /\
  (forall m, call = Throw (ThrownError m) ->
     run env input = mkUIResult "error" "" None (Some m)) /\
  (forall v, call = Throw (ThrownOther v) ->
     run env input = mkUIResult "error" "" None (Some "Unknown error occurred")) /\
  (forall v s, call = Ok v -> payload_text_at v s -> JSON_parse s = None ->
     run env input = mkUIResult "error" "" None (Some "Failed to parse AI response as JSON")) /\
  (forall v, call = Ok v -> payload_text_missing v ->
     run env input =
       mkUIResult "error" "" None (Some "AI response did not include a parsable JSON payload")) /\
  (forall v t, call = Ok v -> parseAiStructuredResponse JSON_parse v = Throw t ->
     run env input = mkUIResult "error" "" None (Some "Failed to parse AI response as JSON") \/
     run env input =
       mkUIResult "error" "" None (Some "AI response did not include a parsable JSON payload")) /\
  (forall v structured, call = Ok v ->
     parseAiStructuredResponse JSON_parse v = Ok structured ->
     UIResultSchema_parse structured = None ->
     run env input =
       mkUIResult "error" "" None
         (Some ("AI response failed validation: " ++ zod_error_message structured))).
Proof.
  intros run env call.
  unfold run, env, call, processTask; simpl.
  split; [reflexivity|].
  split; [intros m H; now rewrite H|].
  split; [intros v H; now rewrite H|].
  split.
  { intros v s H Ht Hp. rewrite H, (parse_payload_text JSON_parse v s Ht).
    unfold safeJsonParse. now rewrite Hp. }
  split.
  { intros v H Hm. rewrite H, (parse_payload_missing JSON_parse v Hm). reflexivity. }
  split.
  { intros v t H Ht. rewrite H, Ht.
    destruct (parse_throws_messages JSON_parse v t Ht) as [->| ->]; [left|right]; reflexivity. }
  intros v structured H Hp Hs. now rewrite H, Hp, Hs.
Qed.

Lemma processTask_error_messages_witness :
  let ai : Ai := fun _ _ =>
    Ok (JObject [("results", JArray [JObject [("response", JString "not json")]])]) in
  let v := JObject [("results", JArray [JObject [("response", JString "not json")]])] in
  payload_text_at v "not json" /\
  payload_text_missing (JObject [("response", JNumber 1); ("results", JArray [])]) /\
  processTask (fun _ => None) (fun _ => "") (mkUIFactoryEnv (Some ai) None)
    (mkUITaskInput "t" "d" None) =
    mkUIResult "error" "" None (Some "Failed to parse AI response as JSON").
Proof.
  intros ai v.
  assert (Ht : payload_text_at v "not json").
  { right; right. exists [("results", JArray [JObject [("response", JString "not json")]])],
      [("response", JString "not json")], [].
    split; [reflexivity|]. split; [intros r; discriminate|]. split; reflexivity. }
  split; [exact Ht|].
  split.
  { split; [intros s; discriminate|].
    intros fs H; injection H as <-. split; [intros r; discriminate|].
    intros ffs rest r H; discriminate H. }
  exact (proj1 (proj2 (proj2 (proj2 (processTask_error_messages (fun _ => None) (fun _ => "")
           ai None (mkUITaskInput "t" "d" None)))))
           v "not json" eq_refl Ht eq_refl).
Defined.

(** Where [parseAiStructuredResponse] looks for the JSON text: a string
    [response] property wins over [results]; otherwise only the first
    element of a [results] array is consulted, so a string [response] in a
    later element is never used; an array payload has no [response]. *)
Theorem parse_payload_precedence JSON_parse :
  (forall fs r, get fs "response" = JString r ->
     parseAiStructuredResponse JSON_parse (JObject fs) = safeJsonParse JSON_parse r) /\
  (forall fs first rest,
     (forall r, get fs "response" <> JString r) ->
     get fs "results" = JArray (first :: rest) ->
     (forall ffs r, first = JObject ffs -> get ffs "response" <> JString r) ->
     parseAiStructuredResponse JSON_parse (JObject fs) = no_payload) /\
  (forall items, parseAiStructuredResponse JSON_parse (JArray items) = no_payload).
Proof.
  split; [|split].
  - intros fs r H. simpl. now rewrite H.
  - intros fs first rest Hr Hres Hfirst. simpl.
    assert (Hres' : match get fs "results" with
                    | JArray (JObject first :: _) =>
                        match get first "response" with
                        | JString r => safeJsonParse JSON_parse r
                        | _ => no_payload
                        end
                    | _ => no_payload
                    end = no_payload).
    { rewrite Hres. destruct first as [| | | | | |ffs]; try reflexivity.
      destruct (get ffs "response") eqn:E2; try reflexivity.
      exfalso; eapply Hfirst; [reflexivity|exact E2]. }
    destruct (get fs "response") eqn:E; try exact Hres'.
    exfalso; eapply Hr; reflexivity.
  - reflexivity.
Qed.

Lemma parse_payload_precedence_witness :
  parseAiStructuredResponse (fun _ => Some JNull)
    (JObject [("results", JArray [JObject []; JObject [("response", JString "{}")]])]) =
  no_payload.
Proof.
  apply (proj1 (proj2 (parse_payload_precedence (fun _ => Some JNull))))
    with (first := JObject []) (rest := [JObject [("response", JString "{}")]]).
  - intros r H; discriminate H.
  - reflexivity.
  - intros ffs r H; injection H as <-; discriminate.
Defined.

(** An empty [requirements] array is treated as absent: the prompt, and so
    the whole [processTask] run, is the same as without requirements. *)
Theorem processTask_empty_requirements JSON_parse zod_error_message env t d :
  processTask JSON_parse zod_error_message env (mkUITaskInput t d (Some [])) =
  processTask JSON_parse zod_error_message env (mkUITaskInput t d None).
Proof. reflexivity. Qed.

End UiFactoryProofs.
